(** * filters.covariancefeatures: local covariance features of a point cloud

    A shallow embedding of [CovarianceFeaturesFilter.cpp] (option binding,
    dimension registration, the thread dispatcher and the per-point feature
    computation), followed by the properties established about it.

    Conventions of the embedding.
    - A C++ [double] is a value of [double] below: either a finite real
      number, one of the two infinities, or NaN.  Finite arithmetic is exact
      (rounding and overflow to infinity are abstracted away); the IEEE 754
      rules for the exceptional values are kept ([log 0 = -inf],
      [0 * inf = NaN], [x / 0 = inf], comparisons with NaN are false).  The
      sign of zero is not tracked.
    - [int] is a signed 32-bit integer, [size_t], [point_count_t] and
      [PointId] are unsigned 64-bit integers; they are carried by [Z] with the
      conversions and the wrap-around written out.
    - The k-d index, [math::computeCovariance] and Eigen's
      [SelfAdjointEigenSolver] are collaborators of the filter that live
      outside this file: they are variables of the section holding the
      per-point code. *)

From Stdlib Require Import Reals Lra Lia ZArith List String.
From stdpp Require Import base gmap strings.

Local Open Scope Z_scope.

(** ** The arithmetic of [double] *)

Module Dbl.

Inductive double : Type :=
| Fin (r : R)
| PInf
| NInf
| NaN.

Definition zero : double := Fin 0%R.
Definition one : double := Fin 1%R.

(** Tests on reals; the code's comparisons are decided, here through the
    decision procedures of the real numbers. *)
Definition Rltb (a b : R) : bool := if Rlt_dec a b then true else false.
Definition Reqb (a b : R) : bool := if Req_dec_T a b then true else false.

(** [a < b] *)
Definition ltb (a b : double) : bool :=
  match a, b with
  | NaN, _ | _, NaN => false
  | Fin x, Fin y => Rltb x y
  | NInf, NInf => false
  | NInf, _ => true
  | Fin _, PInf => true
  | _, _ => false
  end.

(** [a == b] *)
Definition eqb (a b : double) : bool :=
  match a, b with
  | Fin x, Fin y => Reqb x y
  | PInf, PInf => true
  | NInf, NInf => true
  | _, _ => false
  end.

(** Sign of a non-NaN value: [1], [0] or [-1]. *)
Definition sgn (a : double) : Z :=
  match a with
  | Fin x => if Rltb 0 x then 1 else if Rltb x 0 then (-1) else 0
  | PInf => 1
  | NInf => (-1)
  | NaN => 0
  end.

Definition inf_of_sign (s : Z) : double :=
  if (0 <? s) then PInf else if (s <? 0) then NInf else NaN.

Definition neg (a : double) : double :=
  match a with
  | Fin x => Fin (- x)
  | PInf => NInf
  | NInf => PInf
  | NaN => NaN
  end.

Definition add (a b : double) : double :=
  match a, b with
  | NaN, _ | _, NaN => NaN
  | Fin x, Fin y => Fin (x + y)
  | PInf, NInf | NInf, PInf => NaN
  | PInf, _ | _, PInf => PInf
  | NInf, _ | _, NInf => NInf
  end.

Definition sub (a b : double) : double := add a (neg b).

Definition mul (a b : double) : double :=
  match a, b with
  | NaN, _ | _, NaN => NaN
  | Fin x, Fin y => Fin (x * y)
  | _, _ => inf_of_sign (sgn a * sgn b)
  end.

Definition div (a b : double) : double :=
  match a, b with
  | NaN, _ | _, NaN => NaN
  | Fin x, Fin y => if Reqb y 0 then inf_of_sign (sgn a) else Fin (x / y)
  | Fin _, _ => zero
  | _, Fin _ => inf_of_sign (sgn a * (if Z.eqb (sgn b) (-1) then (-1) else 1))
  | _, _ => NaN
  end.

(** [std::sqrt] *)
Definition sqrt (a : double) : double :=
  match a with
  | Fin x => if Rltb x 0 then NaN else Fin (R_sqrt.sqrt x)
  | PInf => PInf
  | _ => NaN
  end.

(** [std::log]: a pole at zero, a domain error below it. *)
Definition log (a : double) : double :=
  match a with
  | Fin x => if Reqb x 0 then NInf else if Rltb x 0 then NaN else Fin (ln x)
  | PInf => PInf
  | _ => NaN
  end.

(** [std::cbrt] *)
Definition cbrt (a : double) : double :=
  match a with
  | Fin x =>
      if Rltb 0 x then Fin (Rpower x (/ 3))
      else if Rltb x 0 then Fin (- Rpower (- x) (/ 3))
      else zero
  | _ => a
  end.

(** [fabs] *)
Definition fabs (a : double) : double :=
  match a with
  | Fin x => Fin (Rabs x)
  | NaN => NaN
  | _ => PInf
  end.

(** [std::atan] *)
Definition atan (a : double) : double :=
  match a with
  | Fin x => Fin (Ratan.atan x)
  | PInf => Fin (PI / 2)
  | NInf => Fin (- (PI / 2))
  | NaN => NaN
  end.

(** [std::pow] with a small non-negative integer exponent. *)
Fixpoint pow (a : double) (n : nat) : double :=
  match n with
  | O => one
  | S m => mul a (pow a m)
  end.

(** [std::max(a, b)], which is [(a < b) ? b : a]. *)
Definition max (a b : double) : double := if ltb a b then b else a.

(** Conversion of an integer (an [int] or a [uint64_t]) to [double]. *)
Definition of_Z (z : Z) : double := Fin (IZR z).

(** Being a finite value within real bounds. *)
Definition within (lo hi : R) (a : double) : Prop :=
  exists r, a = Fin r /\ (lo <= r <= hi)%R.

End Dbl.

Import Dbl.

(** ** Machine integers *)

Definition INT_MAX : Z := 2 ^ 31 - 1.
Definition U64_MOD : Z := 2 ^ 64.

(** Conversion to (and arithmetic in) an unsigned 64-bit type: [size_t],
    [point_count_t] and [PointId] are all [uint64_t] in PDAL. *)
Definition to_u64 (z : Z) : Z := z mod U64_MOD.

(** ** Data of the filter *)

Definition PointId : Type := Z.
Definition DimId : Type := nat.

(** A program argument as the filter sees it: [Arg::set()] tells whether the
    user supplied a value. *)
Record Arg : Type := { arg_set : bool }.

(** What the user put on the command line or in the pipeline; [None] is an
    option left out, which then takes the default given to [args.add]. *)
Record Options : Type := {
  o_knn : option Z;
  o_threads : option Z;
  o_feature_set : option string;
  o_stride : option Z;
  o_radius : option double;
  o_min_k : option Z;
  o_features : option (list string);
  o_mode : option string;
  o_optimized : option bool
}.

(** The members of [CovarianceFeaturesFilter].  A pointer member is [None]
    until something is assigned to it; [m_mode] is the string the .cpp
    compares with ["SQRT"] and ["NORM"]. *)
Record Filter : Type := {
  m_knn : Z;
  m_threads : Z;
  m_featureSet : string;
  m_extraDims : gmap string DimId;
  m_stride : Z;
  m_radius : double;
  m_minK : Z;
  m_featuresArg : option Arg;
  m_features : list string;
  m_mode : string;
  m_kopt : DimId;
  m_ropt : DimId;
  m_radiusArg : option Arg;
  m_optimal : bool
}.

Definition with_extraDims (f : Filter) (m : gmap string DimId) : Filter :=
  {| m_knn := m_knn f; m_threads := m_threads f;
     m_featureSet := m_featureSet f; m_extraDims := m;
     m_stride := m_stride f; m_radius := m_radius f; m_minK := m_minK f;
     m_featuresArg := m_featuresArg f; m_features := m_features f;
     m_mode := m_mode f; m_kopt := m_kopt f; m_ropt := m_ropt f;
     m_radiusArg := m_radiusArg f; m_optimal := m_optimal f |}.

Definition with_mode (f : Filter) (mode : string) : Filter :=
  {| m_knn := m_knn f; m_threads := m_threads f;
     m_featureSet := m_featureSet f; m_extraDims := m_extraDims f;
     m_stride := m_stride f; m_radius := m_radius f; m_minK := m_minK f;
     m_featuresArg := m_featuresArg f; m_features := m_features f;
     m_mode := mode; m_kopt := m_kopt f; m_ropt := m_ropt f;
     m_radiusArg := m_radiusArg f; m_optimal := m_optimal f |}.

Definition with_threads (f : Filter) (n : Z) : Filter :=
  {| m_knn := m_knn f; m_threads := n;
     m_featureSet := m_featureSet f; m_extraDims := m_extraDims f;
     m_stride := m_stride f; m_radius := m_radius f; m_minK := m_minK f;
     m_featuresArg := m_featuresArg f; m_features := m_features f;
     m_mode := m_mode f; m_kopt := m_kopt f; m_ropt := m_ropt f;
     m_radiusArg := m_radiusArg f; m_optimal := m_optimal f |}.

Definition with_optDims (f : Filter) (k r : DimId) : Filter :=
  {| m_knn := m_knn f; m_threads := m_threads f;
     m_featureSet := m_featureSet f; m_extraDims := m_extraDims f;
     m_stride := m_stride f; m_radius := m_radius f; m_minK := m_minK f;
     m_featuresArg := m_featuresArg f; m_features := m_features f;
     m_mode := m_mode f; m_kopt := k; m_ropt := r;
     m_radiusArg := m_radiusArg f; m_optimal := m_optimal f |}.

Definition with_radiusArg (f : Filter) (a : option Arg) : Filter :=
  {| m_knn := m_knn f; m_threads := m_threads f;
     m_featureSet := m_featureSet f; m_extraDims := m_extraDims f;
     m_stride := m_stride f; m_radius := m_radius f; m_minK := m_minK f;
     m_featuresArg := m_featuresArg f; m_features := m_features f;
     m_mode := m_mode f; m_kopt := m_kopt f; m_ropt := m_ropt f;
     m_radiusArg := a; m_optimal := m_optimal f |}.

(** The object as the constructor [CovarianceFeaturesFilter() : Filter() {}]
    leaves it: nothing is bound yet and no pointer member designates an
    argument.  The scalar members are overwritten by [addArgs]. *)
Definition newFilter : Filter :=
  {| m_knn := 0; m_threads := 0; m_featureSet := ""; m_extraDims := ∅;
     m_stride := 0; m_radius := zero; m_minK := 0;
     m_featuresArg := None; m_features := []; m_mode := "";
     m_kopt := O; m_ropt := O; m_radiusArg := None; m_optimal := false |}.

(** [addArgs]: every [args.add(name, descr, var, dflt)] binds [var] to the
    user's value or to [dflt].  Only the handle of ["features"] is kept (in
    [m_featuresArg]); the handle returned for ["radius"] is dropped, so
    [m_radiusArg] keeps whatever it held. *)
Definition addArgs (o : Options) (f : Filter) : Filter :=
  {| m_knn := default 10 (o_knn o);
     m_threads := default 1 (o_threads o);
     m_featureSet := default "Dimensionality"%string (o_feature_set o);
     m_extraDims := m_extraDims f;
     m_stride := default 1 (o_stride o);
     m_radius := default zero (o_radius o);
     m_minK := default 3 (o_min_k o);
     m_featuresArg := Some {| arg_set := bool_decide (is_Some (o_features o)) |};
     m_features := default [] (o_features o);
     m_mode := default ""%string (o_mode o);
     m_kopt := m_kopt f;
     m_ropt := m_ropt f;
     m_radiusArg := m_radiusArg f;
     m_optimal := default false (o_optimized o) |}.

(** Result of a piece of code that may return, throw ([throwError]) or have no
    defined behaviour.  A throw carries the state at the moment it happens. *)
Inductive outcome (A : Type) : Type :=
| Returned (a : A)
| Thrown (msg : string) (a : A)
| Undefined.
Arguments Returned {A} a.
Arguments Thrown {A} msg a.
Arguments Undefined {A}.

(** ** Registration of the feature dimensions *)

Section Registration.

(** The point layout of the host pipeline. *)
Variable Layout : Type.
Variable registerOrAssignDim : Layout -> string -> Layout * DimId.
Variable findDim : Layout -> string -> option DimId.

(** [for (dim : names) m_extraDims[dim] = layout->registerOrAssignDim(dim, Double);] *)
Fixpoint registerAll (names : list string) (m : gmap string DimId)
    (layout : Layout) : gmap string DimId * Layout :=
  match names with
  | [] => (m, layout)
  | dim :: rest =>
      let '(layout', d) := registerOrAssignDim layout dim in
      registerAll rest (<[dim := d]> m) layout'
  end.

Definition dimensionalityFeatures : list string :=
  ["Linearity"; "Planarity"; "Scattering"; "Verticality"]%string.

Definition allFeatures : list string :=
  ["Linearity"; "Planarity"; "Scattering"; "Verticality";
   "Omnivariance"; "Sum"; "Eigenentropy"; "Anisotropy";
   "SurfaceVariation"; "DemantkeVerticality"; "Density"]%string.

(** [addDimensions]; [m_featuresArg->set()] has no defined behaviour when
    the pointer was never assigned. *)
Definition addDimensions (f : Filter) (layout : Layout)
    : outcome (Filter * Layout) :=
  match m_featuresArg f with
  | None => Undefined
  | Some a =>
      if arg_set a then
        let '(m, layout') := registerAll (m_features f) (m_extraDims f) layout in
        Returned (with_extraDims f m, layout')
      else if String.eqb (m_featureSet f) "Dimensionality" then
        let f1 := with_mode f "SQRT" in
        let '(m, layout') :=
          registerAll dimensionalityFeatures (m_extraDims f1) layout in
        Returned (with_extraDims f1 m, layout')
      else
        let '(m, layout') := registerAll allFeatures (m_extraDims f) layout in
        Returned (with_extraDims f m, layout')
  end.

(** [prepared]; the messages are the source's, without the quotation marks
    it puts around the dimension names. *)
Definition prepared (f : Filter) (layout : Layout) : outcome Filter :=
  if m_optimal f then
    match findDim layout "OptimalKNN" with
    | None => Thrown "No dimension OptimalKNN." f
    | Some k =>
        match findDim layout "OptimalRadius" with
        | None => Thrown "No dimension OptimalRadius." (with_optDims f k (m_ropt f))
        | Some r => Returned (with_optDims f k r)
        end
    end
  else Returned f.

(** The stage life cycle up to the first call of [filter]: the options are
    bound, the dimensions registered, the stage prepared. *)
Definition initialize (o : Options) (layout : Layout) : outcome (Filter * Layout) :=
  match addDimensions (addArgs o newFilter) layout with
  | Returned (f, layout') =>
      match prepared f layout' with
      | Returned f' => Returned (f', layout')
      | Thrown msg f' => Thrown msg (f', layout')
      | Undefined => Undefined
      end
  | Thrown msg s => Thrown msg s
  | Undefined => Undefined
  end.

End Registration.

(** ** The point view and the collaborators of the per-point code *)

(** The part of a [PointView] the filter acts on: its size and the fields
    written through [PointRef::setField].  Positions and the optimal
    neighbourhood fields are inputs, reached through [Collaborators]. *)
Record PointView : Type := {
  pv_size : Z;
  pv_fields : gmap (PointId * DimId) double
}.

Definition setField (view : PointView) (id : PointId) (d : DimId) (v : double)
    : PointView :=
  {| pv_size := pv_size view; pv_fields := <[(id, d) := v]> (pv_fields view) |}.

Definition getField (view : PointView) (id : PointId) (d : DimId) : option double :=
  pv_fields view !! (id, d).

(** Eigen's [ComputationInfo]. *)
Inductive ComputationInfo : Type :=
| Success | NumericalIssue | NoConvergence | InvalidInput.

Definition is_Success (i : ComputationInfo) : bool :=
  match i with Success => true | _ => false end.

(** A [SelfAdjointEigenSolver<Matrix3d>] after construction:
    [eigenvalues()] (by index, ascending in Eigen) and [eigenvectors()]
    (by column, then row). *)
Record EigenSolver : Type := {
  info : ComputationInfo;
  eigenvalues : nat -> double;
  eigenvectors : nat -> nat -> double
}.

(** What the per-point code calls but does not define.  The neighbour
    queries, the covariance and the input fields depend on the positions and
    on the input dimensions only, which the filter never writes: the registry
    gives a feature name a dimension of its own. *)
Record Collaborators : Type := {
  Matrix3d : Type;
  kdi_neighbors : PointId -> Z -> Z -> list PointId;
  kdi_radius : PointId -> double -> list PointId;
  computeCovariance : list PointId -> Matrix3d;
  solve : Matrix3d -> EigenSolver;
  getFieldAs_uint64 : PointId -> DimId -> Z;
  getFieldAs_double : PointId -> DimId -> double
}.

(** ** The feature formulas *)

(** [lambda[i]] on a [std::vector<double>]; the vectors of the code all have
    three elements. *)
Definition at_ (l : list double) (i : nat) : double := nth i l NaN.
Notation "l .[ i ]" := (at_ l i) (at level 1, format "l .[ i ]").

(** [std::accumulate(lambda.begin(), lambda.end(), 0.0)] *)
Definition accumulate (l : list double) (init : double) : double :=
  fold_left add l init.

(** The triple [{max(ev[2],0.0), max(ev[1],0.0), max(ev[0],0.0)}]. *)
Definition clampedSpectrum (ev : nat -> double) : list double :=
  [max (ev 2%nat) zero; max (ev 1%nat) zero; max (ev 0%nat) zero].

(** The two [std::transform] calls selected by [m_mode]. *)
Definition scaleEigenvalues (mode : string) (sum : double) (lambda : list double)
    : list double :=
  if String.eqb mode "SQRT" then map sqrt lambda
  else if String.eqb mode "NORM" then map (fun v => div v sum) lambda
  else lambda.

Definition linearity (lambda : list double) : double :=
  div (sub lambda.[0] lambda.[1]) lambda.[0].

Definition planarity (lambda : list double) : double :=
  div (sub lambda.[1] lambda.[2]) lambda.[0].

Definition scattering (lambda : list double) : double :=
  div lambda.[2] lambda.[0].

(** [unary_vector[i]] of the Verticality block; [v1], [v2], [v3] are the
    columns 2, 1 and 0 of the eigenvector matrix. *)
Definition unary_vector (lambda : list double) (vecs : nat -> nat -> double)
    (i : nat) : double :=
  add (add (mul lambda.[0] (fabs (vecs 2%nat i)))
           (mul lambda.[1] (fabs (vecs 1%nat i))))
      (mul lambda.[2] (fabs (vecs 0%nat i))).

Definition verticality (lambda : list double) (vecs : nat -> nat -> double)
    : double :=
  let u := unary_vector lambda vecs in
  let norm := fold_left (fun n i => add n (mul (u i) (u i))) [0; 1; 2]%nat zero in
  div (u 2%nat) (sqrt norm).

Definition omnivariance (lambda : list double) : double :=
  cbrt (mul (mul lambda.[2] lambda.[1]) lambda.[0]).

Definition eigenentropy (lambda : list double) : double :=
  neg (add (add (mul lambda.[2] (log lambda.[2]))
                (mul lambda.[1] (log lambda.[1])))
           (mul lambda.[0] (log lambda.[0]))).

Definition anisotropy (lambda : list double) : double :=
  div (sub lambda.[0] lambda.[2]) lambda.[0].

Definition surfaceVariation (lambda : list double) (sum : double) : double :=
  div lambda.[2] sum.

Definition demantkeVerticality (vecs : nat -> nat -> double) : double :=
  sub one (fabs (vecs 0%nat 2%nat)).

(** [(kopt + 1) / ((4 / 3) * pi * std::pow(ropt, 3))] with
    [pi = 4.0 * std::atan(1.0)]; [4 / 3] is a quotient of two [int]
    literals. *)
Definition density (kopt : Z) (ropt : double) : double :=
  let pi := mul (Fin 4) (atan (Fin 1)) in
  div (add (of_Z kopt) (of_Z 1))
      (mul (mul (of_Z (Z.quot 4 3)) pi) (pow ropt 3)).

(** ** The per-point code and the dispatcher *)

Section PerPoint.

Context (W : Collaborators).

(** Outcome of the neighbour search at the head of [setDimensionality]. *)
Inductive resolution : Type :=
| Ids (ids : list PointId)
| Insufficient
| NoBehaviour.

(** Lines 160-178.  [m_radiusArg->set()] needs the pointer to designate an
    argument; [m_knn + 1] is an [int] sum, converted to the count type of
    [KD3Index::neighbors]. *)
Definition findNeighbors (f : Filter) (id : PointId) : resolution :=
  if m_optimal f then
    Ids (kdi_neighbors W id (getFieldAs_uint64 W id (m_kopt f)) 1)
  else
    match m_radiusArg f with
    | None => NoBehaviour
    | Some a =>
        if arg_set a then
          let ids := kdi_radius W id (m_radius f) in
          if Z.of_nat (length ids) <? to_u64 (m_minK f) then Insufficient
          else Ids ids
        else if m_knn f <? INT_MAX then
          Ids (kdi_neighbors W id (to_u64 (m_knn f + 1)) (m_stride f))
        else NoBehaviour
    end.

(** [if (m_extraDims.count(name)) p.setField(m_extraDims[name], v);] *)
Definition setFeature (f : Filter) (id : PointId) (name : string) (v : double)
    (view : PointView) : PointView :=
  match m_extraDims f !! name with
  | Some d => setField view id d v
  | None => view
  end.

(** Lines 225-301: the eleven feature blocks, in the order of the source. *)
Definition writeFeatures (f : Filter) (id : PointId) (lambda : list double)
    (sum : double) (vecs : nat -> nat -> double) (view : PointView) : PointView :=
  let view := setFeature f id "Linearity" (linearity lambda) view in
  let view := setFeature f id "Planarity" (planarity lambda) view in
  let view := setFeature f id "Scattering" (scattering lambda) view in
  let view := setFeature f id "Verticality" (verticality lambda vecs) view in
  let view := setFeature f id "Omnivariance" (omnivariance lambda) view in
  let view := setFeature f id "Sum" sum view in
  let view := setFeature f id "Eigenentropy" (eigenentropy lambda) view in
  let view := setFeature f id "Anisotropy" (anisotropy lambda) view in
  let view := setFeature f id "SurfaceVariation" (surfaceVariation lambda sum) view in
  let view := setFeature f id "DemantkeVerticality" (demantkeVerticality vecs) view in
  if m_optimal f then
    setFeature f id "Density"
      (density (getFieldAs_uint64 W id (m_kopt f)) (getFieldAs_double W id (m_ropt f)))
      view
  else view.

(** The feature blocks as rows: name and value written. *)
Definition featureRows (f : Filter) (id : PointId) (lambda : list double)
    (sum : double) (vecs : nat -> nat -> double) : list (string * double) :=
  [("Linearity", linearity lambda); ("Planarity", planarity lambda);
   ("Scattering", scattering lambda); ("Verticality", verticality lambda vecs);
   ("Omnivariance", omnivariance lambda); ("Sum", sum);
   ("Eigenentropy", eigenentropy lambda); ("Anisotropy", anisotropy lambda);
   ("SurfaceVariation", surfaceVariation lambda sum);
   ("DemantkeVerticality", demantkeVerticality vecs)]%string
  ++ (if m_optimal f then
        [("Density"%string,
          density (getFieldAs_uint64 W id (m_kopt f))
                  (getFieldAs_double W id (m_ropt f)))]
      else []).

Definition writeRows (f : Filter) (id : PointId) (rows : list (string * double))
    (view : PointView) : PointView :=
  fold_left (fun v row => setFeature f id (fst row) (snd row) v) rows view.

(** The two messages given to [throwError]. *)
Definition msgDecomposition : string := "Cannot perform eigen decomposition.".
Definition msgDegenerate : string :=
  "Eigenvalues are all 0. Can't compute local features.".

(** [setDimensionality] *)
Definition setDimensionality (f : Filter) (view : PointView) (id : PointId)
    : outcome PointView :=
  match findNeighbors f id with
  | NoBehaviour => Undefined
  | Insufficient => Returned view
  | Ids ids =>
      let B := computeCovariance W ids in
      let solver := solve W B in
      if negb (is_Success (info solver)) then
        Thrown msgDecomposition view
      else
        let ev := eigenvalues solver in
        let lambda := clampedSpectrum ev in
        let sum := accumulate lambda zero in
        if eqb lambda.[0] zero then
          Thrown msgDegenerate view
        else
          let lambda := scaleEigenvalues (m_mode f) sum lambda in
          Returned (writeFeatures f id lambda sum (eigenvectors solver) view)
  end.

(** [for (PointId i = start; i < end; i++)]: the ids visited. *)
Definition idRange (start stop : Z) : list PointId :=
  map (fun k => start + Z.of_nat k) (seq 0 (Z.to_nat (stop - start))).

(** The body of one thread on its ids; a throw or undefined behaviour ends
    the run. *)
Fixpoint forEachPoint (f : Filter) (ids : list PointId) (view : PointView)
    : outcome PointView :=
  match ids with
  | [] => Returned view
  | i :: rest =>
      match setDimensionality f view i with
      | Returned view' => forEachPoint f rest view'
      | o => o
      end
  end.

(** The bounds bound to thread [t]: [t*nloops/m_threads] and
    [(t+1)==m_threads ? nloops : (t+1)*nloops/m_threads], the products and
    quotients taken in [point_count_t]. *)
Definition threadStart (nloops threads t : Z) : Z :=
  to_u64 (t * nloops) / to_u64 threads.

Definition threadEnd (nloops threads t : Z) : Z :=
  if t + 1 =? threads then nloops
  else to_u64 ((t + 1) * nloops) / to_u64 threads.

Definition threadRange (nloops threads t : Z) : list PointId :=
  idRange (threadStart nloops threads t) (threadEnd nloops threads t).

Definition threadIds (threads : Z) : list Z :=
  map Z.of_nat (seq 0 (Z.to_nat threads)).

(** [filter].  The threads are composed one after the other in the order
    of their creation; each writes the points of its own range only.
    A negative [m_threads] makes [std::vector<std::thread>(m_threads)]
    throw [std::length_error]. *)
Definition filter (f : Filter) (view : PointView) : outcome PointView :=
  let nloops := pv_size view in
  if m_threads f <? 0 then Thrown "std::length_error" view
  else
    forEachPoint f
      (concat (map (threadRange nloops (m_threads f)) (threadIds (m_threads f))))
      view.

End PerPoint.

(** A registry gives different names different dimensions. *)
Definition dims_distinct (m : gmap string DimId) : Prop :=
  forall n1 n2 d, m !! n1 = Some d -> m !! n2 = Some d -> n1 = n2.

(** [i] is visited by thread [t]. *)
Definition inThread (nloops threads t i : Z) : Prop :=
  threadStart nloops threads t <= i < threadEnd nloops threads t.

(** Consecutive ranges share their bound, the first starts at 0, the last
    ends at [nloops]. *)
Definition contiguous (nloops threads : Z) : Prop :=
  threadStart nloops threads 0 = 0
  /\ threadEnd nloops threads (threads - 1) = nloops
  /\ forall t, 0 <= t < threads - 1 ->
       threadEnd nloops threads t = threadStart nloops threads (t + 1).

(** Every point id of the view belongs to one thread and to one only, and
    the threads visit nothing else. *)
Definition exactly_once (nloops threads : Z) : Prop :=
  (forall i, 0 <= i < nloops ->
     exists t, (0 <= t < threads /\ inThread nloops threads t i)
       /\ forall t', 0 <= t' < threads -> inThread nloops threads t' i -> t' = t)
  /\ (forall t i, 0 <= t < threads -> inThread nloops threads t i -> 0 <= i < nloops).

(** ** Statements about the feature values *)

(** The sum of the specification, in which a term [l * ln l] counts for 0
    when [l] is 0. *)
Definition guardedTerm (l : double) : double :=
  if eqb l zero then zero else mul l (log l).

Definition eigenentropy_guarded (lambda : list double) : double :=
  neg (add (add (guardedTerm lambda.[2]) (guardedTerm lambda.[1]))
           (guardedTerm lambda.[0])).


(** A triple of finite values in strictly decreasing order. *)
Definition strictly_decreasing (lambda : list double) : Prop :=
  exists a b c, lambda = [Fin a; Fin b; Fin c] /\ (a > b)%R /\ (b > c)%R.

(** A triple of finite values in non-increasing order, none negative. *)
Definition ordered_nonneg (lambda : list double) : Prop :=
  exists a b c, lambda = [Fin a; Fin b; Fin c] /\ (a >= b)%R /\ (b >= c)%R /\ (c >= 0)%R.

(** ** A concrete pipeline, to run the code on explicit inputs *)

Module Sample.

(** A registry that numbers the dimensions in the order of registration. *)
Definition Layout : Type := list string.

Fixpoint indexOf (name : string) (l : list string) (i : nat) : option nat :=
  match l with
  | [] => None
  | n :: rest => if String.eqb n name then Some i else indexOf name rest (S i)
  end.

Definition registerOrAssignDim (l : Layout) (name : string) : Layout * DimId :=
  match indexOf name l 0 with
  | Some i => (l, i)
  | None => (l ++ [name], length l)
  end.

Definition findDim (l : Layout) (name : string) : option DimId := indexOf name l 0.

Definition layout0 : Layout :=
  ["X"; "Y"; "Z"; "OptimalKNN"; "OptimalRadius"]%string.

(** A view in which every neighbourhood has the solver report [status] and
    the eigenvalues [e0], [e1], [e2] with the coordinate axes as eigenvectors;
    a radius query finds [found] points; every point carries the optimal
    neighbourhood [kopt], [ropt]. *)
Definition world (status : ComputationInfo) (e0 e1 e2 : double) (found : nat)
    (kopt : Z) (ropt : double) : Collaborators :=
  {| Matrix3d := unit;
     kdi_neighbors := fun _ k _ => repeat 0 (Z.to_nat k);
     kdi_radius := fun _ _ => repeat 0 found;
     computeCovariance := fun _ => tt;
     solve := fun _ =>
       {| info := status;
          eigenvalues := fun i =>
            match i with O => e0 | S O => e1 | _ => e2 end;
          eigenvectors := fun c r => if Nat.eqb c r then one else zero |};
     getFieldAs_uint64 := fun _ _ => kopt;
     getFieldAs_double := fun _ _ => ropt |}.

Definition options (feature_set : string) (mode : string) (optimized : bool)
    : Options :=
  {| o_knn := None; o_threads := None; o_feature_set := Some feature_set;
     o_stride := None; o_radius := None; o_min_k := None; o_features := None;
     o_mode := Some mode; o_optimized := Some optimized |}.

Definition noOptions : Options :=
  {| o_knn := None; o_threads := None; o_feature_set := None;
     o_stride := None; o_radius := None; o_min_k := None; o_features := None;
     o_mode := None; o_optimized := None |}.

(** The filter after [initialize] on [layout0]. *)
Definition configured (o : Options) : Filter :=
  match initialize Layout registerOrAssignDim findDim o layout0 with
  | Returned (f, _) => f
  | _ => newFilter
  end.

(** The layout after [initialize] on [layout0]. *)
Definition finalLayout (o : Options) : Layout :=
  match initialize Layout registerOrAssignDim findDim o layout0 with
  | Returned (_, l) => l
  | _ => layout0
  end.

(** All eleven features, precomputed neighbourhoods, the given mode. *)
Definition allOptimized (mode : string) : Filter :=
  configured (options "all" mode true).

(** All eleven features, searched neighbourhoods, with [m_radiusArg] made to
    designate the radius argument, given ([given = true]) or not. *)
Definition allSearched (given : bool) : Filter :=
  with_radiusArg (configured (options "all" "" false)) (Some {| arg_set := given |}).

Definition emptyView (n : Z) : PointView := {| pv_size := n; pv_fields := ∅ |}.

(** All eleven features and a [radius] given by the user. *)
Definition radiusOptions (r : double) : Options :=
  {| o_knn := None; o_threads := None; o_feature_set := Some "all"%string;
     o_stride := None; o_radius := Some r; o_min_k := None; o_features := None;
     o_mode := None; o_optimized := None |}.


End Sample.

(** * Properties *)

(** ** Arithmetic of [double] on finite values *)

Section DoubleFacts.

Local Open Scope R_scope.


Lemma Rltb_false a b : b <= a -> Rltb a b = false.
Proof. intros H. unfold Rltb. destruct (Rlt_dec a b); [lra | reflexivity]. Qed.

Lemma Reqb_true a : Reqb a a = true.
Proof. unfold Reqb. destruct (Req_dec_T a a); [reflexivity | congruence]. Qed.

Lemma Reqb_false a b : a <> b -> Reqb a b = false.
Proof. intros H. unfold Reqb. destruct (Req_dec_T a b); [contradiction | reflexivity]. Qed.


Lemma div_Fin a b : b <> 0 -> div (Fin a) (Fin b) = Fin (a / b).
Proof. intros H. unfold div. now rewrite Reqb_false. Qed.

Lemma sqrt_Fin a : 0 <= a -> Dbl.sqrt (Fin a) = Fin (R_sqrt.sqrt a).
Proof. intros H. unfold Dbl.sqrt. now rewrite Rltb_false. Qed.

Lemma log_Fin a : 0 < a -> log (Fin a) = Fin (ln a).
Proof.
  intros H. unfold log. rewrite Reqb_false by lra. now rewrite Rltb_false by lra.
Qed.

Lemma log_zero : log zero = NInf.
Proof. unfold log, zero. now rewrite Reqb_true. Qed.

(** The unguarded product [0 * log 0]. *)
Lemma mul_zero_log_zero : mul zero (log zero) = NaN.
Proof.
  rewrite log_zero. unfold mul, zero, inf_of_sign, sgn.
  rewrite !Rltb_false by lra. reflexivity.
Qed.

Lemma max_zero_Fin e : max (Fin e) zero = Fin (Rmax e 0).
Proof.
  unfold max, ltb, zero, Rltb, Rmax.
  destruct (Rlt_dec e 0), (Rle_dec e 0); try reflexivity; try lra; f_equal; lra.
Qed.


(** [4.0 * std::atan(1.0)] is pi. *)
Lemma four_atan_one : mul (Fin 4) (atan (Fin 1)) = Fin PI.
Proof. unfold mul, atan. rewrite atan_1. f_equal. field. Qed.

Lemma pow3_Fin r : pow (Fin r) 3 = Fin (r ^ 3).
Proof. reflexivity. Qed.

End DoubleFacts.

(** ** Reading back what [writeFeatures] wrote *)

Section Store.

Context (W : Collaborators).

Lemma getField_setField_eq view id d v :
  getField (setField view id d v) id d = Some v.
Proof. unfold getField, setField; simpl. apply lookup_insert_eq. Qed.

Lemma getField_setField_ne view id d v id' d' :
  (id, d) <> (id', d') ->
  getField (setField view id d v) id' d' = getField view id' d'.
Proof. intros H. unfold getField, setField; simpl. now apply lookup_insert_ne. Qed.

Lemma getField_setFeature_eq f id name v view d :
  m_extraDims f !! name = Some d ->
  getField (setFeature f id name v view) id d = Some v.
Proof. intros H. unfold setFeature. rewrite H. apply getField_setField_eq. Qed.

Lemma getField_setFeature_ne f id name v view name' d :
  dims_distinct (m_extraDims f) ->
  m_extraDims f !! name' = Some d -> name <> name' ->
  getField (setFeature f id name v view) id d = getField view id d.
Proof.
  intros Hd H Hne. unfold setFeature.
  destruct (m_extraDims f !! name) as [d0|] eqn:E; [|reflexivity].
  apply getField_setField_ne. intros Heq. inversion Heq; subst.
  apply Hne. eapply Hd; eassumption.
Qed.

Lemma getField_setFeature_other f id name v view id' d :
  id <> id' ->
  getField (setFeature f id name v view) id' d = getField view id' d.
Proof.
  intros Hne. unfold setFeature.
  destruct (m_extraDims f !! name); [|reflexivity].
  apply getField_setField_ne. congruence.
Qed.

Lemma pv_size_setFeature f id name v view :
  pv_size (setFeature f id name v view) = pv_size view.
Proof. unfold setFeature. now destruct (m_extraDims f !! name). Qed.

Lemma writeFeatures_rows f id lambda sum vecs view :
  writeFeatures W f id lambda sum vecs view
  = writeRows f id (featureRows W f id lambda sum vecs) view.
Proof. unfold writeFeatures, featureRows, writeRows. now destruct (m_optimal f). Qed.

Lemma writeRows_untouched f id rows : forall view name d,
  dims_distinct (m_extraDims f) ->
  m_extraDims f !! name = Some d ->
  ~ In name (map fst rows) ->
  getField (writeRows f id rows view) id d = getField view id d.
Proof.
  induction rows as [|[n x] rows IH]; intros view name d Hd Hn Hnot; [reflexivity|].
  simpl in *. unfold writeRows in *. simpl.
  rewrite (IH _ name d Hd Hn) by tauto.
  apply getField_setFeature_ne with (name' := name); auto.
Qed.

Lemma writeRows_read f id rows : forall view name x d,
  dims_distinct (m_extraDims f) ->
  NoDup (map fst rows) ->
  In (name, x) rows ->
  m_extraDims f !! name = Some d ->
  getField (writeRows f id rows view) id d = Some x.
Proof.
  induction rows as [|[n y] rows IH]; intros view name x d Hd Hnd Hin Hn; [destruct Hin|].
  simpl in Hnd. apply NoDup_cons in Hnd as [Hhead Htail].
  destruct Hin as [Heq | Hin].
  - inversion Heq; subst. unfold writeRows. simpl.
    change (fold_left _ rows ?v) with (writeRows f id rows v).
    rewrite (writeRows_untouched f id rows _ name d Hd Hn).
    + now apply getField_setFeature_eq.
    + intros Hc. apply Hhead. now apply list_elem_of_In.
  - unfold writeRows. simpl. apply (IH _ name x d Hd Htail Hin Hn).
Qed.

Lemma writeRows_other_point f id rows : forall view id' d,
  id <> id' ->
  getField (writeRows f id rows view) id' d = getField view id' d.
Proof.
  induction rows as [|[n y] rows IH]; intros view id' d Hne; [reflexivity|].
  unfold writeRows in *. simpl. rewrite IH by assumption.
  now apply getField_setFeature_other.
Qed.

Lemma writeRows_size f id rows : forall view,
  pv_size (writeRows f id rows view) = pv_size view.
Proof.
  induction rows as [|[n y] rows IH]; intros view; [reflexivity|].
  unfold writeRows in *. simpl. rewrite IH. apply pv_size_setFeature.
Qed.

Lemma featureRows_names_NoDup f id lambda sum vecs :
  NoDup (map fst (featureRows W f id lambda sum vecs)).
Proof.
  unfold featureRows. destruct (m_optimal f); simpl;
    apply (bool_decide_unpack _); vm_compute; reflexivity.
Qed.

(** The value read back from a slot after [writeFeatures]. *)
Lemma writeFeatures_read f id lambda sum vecs view name x d :
  dims_distinct (m_extraDims f) ->
  In (name, x) (featureRows W f id lambda sum vecs) ->
  m_extraDims f !! name = Some d ->
  getField (writeFeatures W f id lambda sum vecs view) id d = Some x.
Proof.
  intros Hd Hin Hn. rewrite writeFeatures_rows.
  eapply writeRows_read; eauto using featureRows_names_NoDup.
Qed.

(** When the neighbourhood is found, the solver succeeds and the largest
    clamped eigenvalue is not zero, the point gets its features. *)
Lemma setDimensionality_computes f view id ids :
  findNeighbors W f id = Ids ids ->
  is_Success (info (solve W (computeCovariance W ids))) = true ->
  eqb (max (eigenvalues (solve W (computeCovariance W ids)) 2%nat) zero) zero = false ->
  setDimensionality W f view id =
    let s := solve W (computeCovariance W ids) in
    let lambda := clampedSpectrum (eigenvalues s) in
    let sum := accumulate lambda zero in
    Returned (writeFeatures W f id (scaleEigenvalues (m_mode f) sum lambda) sum
                (eigenvectors s) view).
Proof.
  intros Hn Hs Hz. unfold setDimensionality. rewrite Hn. cbv zeta.
  rewrite Hs. simpl negb. cbv iota.
  change ((clampedSpectrum (eigenvalues (solve W (computeCovariance W ids)))).[0])
    with (max (eigenvalues (solve W (computeCovariance W ids)) 2%nat) zero).
  now rewrite Hz.
Qed.

End Store.

(** ** The ranges handed to the threads *)

Section Ranges.

Variables nloops threads : Z.
Hypothesis threads_pos : 1 <= threads <= INT_MAX.
Hypothesis nloops_nonneg : 0 <= nloops.
Hypothesis no_wrap : threads * nloops < U64_MOD.

Lemma to_u64_threads : to_u64 threads = threads.
Proof. unfold to_u64. apply Z.mod_small. unfold INT_MAX, U64_MOD in *. lia. Qed.

Lemma to_u64_product t : 0 <= t <= threads -> to_u64 (t * nloops) = t * nloops.
Proof. intros Ht. unfold to_u64. apply Z.mod_small. nia. Qed.

Lemma threadStart_exact t :
  0 <= t <= threads -> threadStart nloops threads t = t * nloops / threads.
Proof.
  intros Ht. unfold threadStart. now rewrite to_u64_threads, to_u64_product.
Qed.

Lemma threadEnd_exact t :
  0 <= t < threads -> threadEnd nloops threads t = (t + 1) * nloops / threads.
Proof.
  intros Ht. unfold threadEnd. destruct (Z.eqb_spec (t + 1) threads) as [E|E].
  - rewrite E, (Z.mul_comm threads), Z.div_mul by lia. reflexivity.
  - rewrite to_u64_threads, to_u64_product by lia. reflexivity.
Qed.

Lemma bound_mono a b : 0 <= a <= b -> a * nloops / threads <= b * nloops / threads.
Proof. intros H. apply Z.div_le_mono; nia. Qed.

Lemma contiguous_ranges : contiguous nloops threads.
Proof.
  unfold contiguous. split; [|split].
  - rewrite threadStart_exact by lia. reflexivity.
  - rewrite threadEnd_exact by lia.
    replace (threads - 1 + 1) with threads by lia.
    rewrite (Z.mul_comm threads), Z.div_mul by lia. reflexivity.
  - intros t Ht. rewrite threadEnd_exact, threadStart_exact by lia. reflexivity.
Qed.

End Ranges.

Lemma in_idRange a b i : In i (idRange a b) <-> a <= i < b.
Proof.
  unfold idRange. rewrite in_map_iff. split.
  - intros (k & <- & Hk). apply in_seq in Hk. lia.
  - intros H. exists (Z.to_nat (i - a)). split; [lia|]. apply in_seq. lia.
Qed.

Lemma idRange_app a b c :
  a <= b <= c -> idRange a b ++ idRange b c = idRange a c.
Proof.
  intros H. unfold idRange.
  replace (Z.to_nat (c - a)) with (Z.to_nat (b - a) + Z.to_nat (c - b))%nat by lia.
  rewrite seq_app, map_app. f_equal.
  rewrite Nat.add_comm, <- fmap_add_seq.
  change (Nat.add (Z.to_nat (b - a)) <$> seq 0 (Z.to_nat (c - b)))
    with (map (Nat.add (Z.to_nat (b - a))) (seq 0 (Z.to_nat (c - b)))).
  rewrite map_map. apply map_ext. intros k. lia.
Qed.

Lemma threadIds_snoc k :
  (0 <= k) -> threadIds (k + 1) = threadIds k ++ [k].
Proof.
  intros Hk. unfold threadIds.
  replace (Z.to_nat (k + 1)) with (Z.to_nat k + 1)%nat by lia.
  rewrite seq_app, map_app. simpl. f_equal. f_equal. lia.
Qed.

Section Cover.

Variables nloops threads : Z.
Hypothesis threads_pos : 1 <= threads <= INT_MAX.
Hypothesis nloops_nonneg : 0 <= nloops.
Hypothesis no_wrap : threads * nloops < U64_MOD.

(** The ranges of the first [k] threads, one after the other, are the ids
    below the bound of thread [k]. *)
Lemma first_ranges k :
  (k <= Z.to_nat threads)%nat ->
  concat (map (threadRange nloops threads) (threadIds (Z.of_nat k)))
  = idRange 0 (Z.of_nat k * nloops / threads).
Proof.
  induction k as [|k IH]; intros Hk.
  - reflexivity.
  - rewrite Nat2Z.inj_succ, <- Z.add_1_r, threadIds_snoc by lia.
    rewrite map_app, concat_app, IH by lia. simpl. rewrite app_nil_r.
    unfold threadRange.
    rewrite (threadStart_exact nloops threads), (threadEnd_exact nloops threads)
      by (assumption || lia).
    apply idRange_app. split.
    + apply Z.div_pos; nia.
    + apply bound_mono; lia.
Qed.

Lemma all_ranges :
  concat (map (threadRange nloops threads) (threadIds threads)) = idRange 0 nloops.
Proof.
  rewrite <- (Z2Nat.id threads) at 2 by lia.
  rewrite first_ranges by lia.
  rewrite Z2Nat.id, (Z.mul_comm threads), Z.div_mul by lia. reflexivity.
Qed.

Lemma in_threadIds t : In t (threadIds threads) <-> 0 <= t < threads.
Proof.
  unfold threadIds. rewrite in_map_iff. split.
  - intros (k & <- & Hk). apply in_seq in Hk. lia.
  - intros H. exists (Z.to_nat t). split; [lia|]. apply in_seq. lia.
Qed.

Lemma exactly_once_ranges : exactly_once nloops threads.
Proof.
  split.
  - intros i Hi.
    assert (Hin : In i (concat (map (threadRange nloops threads) (threadIds threads))))
      by (rewrite all_ranges; apply in_idRange; lia).
    apply in_concat in Hin as (l & Hl & Hil).
    apply in_map_iff in Hl as (t & <- & Ht). apply in_threadIds in Ht.
    apply in_idRange in Hil.
    exists t. split; [split; assumption|].
    intros t' Ht' Hin'. unfold inThread in *.
    rewrite (threadStart_exact nloops threads), (threadEnd_exact nloops threads)
      in Hil, Hin' by (assumption || lia).
    destruct (Z.lt_trichotomy t' t) as [Hlt | [Heq | Hgt]]; [|assumption|].
    + pose proof (bound_mono nloops threads threads_pos nloops_nonneg (t' + 1) t). lia.
    + pose proof (bound_mono nloops threads threads_pos nloops_nonneg (t + 1) t'). lia.
  - intros t i Ht Hin. unfold inThread in Hin.
    rewrite (threadStart_exact nloops threads), (threadEnd_exact nloops threads)
      in Hin by (assumption || lia).
    pose proof (bound_mono nloops threads threads_pos nloops_nonneg 0 t).
    pose proof (bound_mono nloops threads threads_pos nloops_nonneg (t + 1) threads).
    rewrite (Z.mul_comm threads), Z.div_mul in * by lia.
    rewrite Z.mul_0_l, Z.div_0_l in * by lia. lia.
Qed.

End Cover.

(** ** Selection of the neighbourhood *)

Section Selection.

Variable Layout : Type.
Variable registerOrAssignDim : Layout -> string -> Layout * DimId.
Variable findDim : Layout -> string -> option DimId.
Context (W : Collaborators).

Lemma registerAll_pair names : forall m layout,
  exists m' layout', registerAll Layout registerOrAssignDim names m layout = (m', layout').
Proof. intros m layout. destruct (registerAll _ _ names m layout); eauto. Qed.

(** Nothing on the way from the constructor to [filter] assigns
    [m_radiusArg], and [m_optimal] is the bound option. *)
Lemma initialize_members o layout f layout' :
  initialize Layout registerOrAssignDim findDim o layout = Returned (f, layout') ->
  m_radiusArg f = None /\ m_optimal f = default false (o_optimized o)
  /\ m_knn f = default 10 (o_knn o) /\ m_radius f = default zero (o_radius o).
Proof.
  unfold initialize, addDimensions, prepared.
  cbn [m_featuresArg addArgs arg_set m_featureSet m_features m_extraDims].
  repeat match goal with
         | |- context [registerAll ?L ?r ?n ?m ?l] =>
             destruct (registerAll L r n m l) as [? ?]
         | |- context [if ?b then _ else _] => destruct b eqn:?
         | |- context [match findDim ?l ?n with _ => _ end] => destruct (findDim l n)
         end;
    intros H; inversion H; subst; cbn; auto.
Qed.

(** What the test of line 165 selects once the pointer designates the
    argument: the radius query when the option was given, the strided
    [knn + 1] query when it was not. *)
Lemma findNeighbors_by_handle f id a :
  m_optimal f = false -> m_radiusArg f = Some a -> m_knn f < INT_MAX ->
  findNeighbors W f id =
    if arg_set a then
      if Z.of_nat (length (kdi_radius W id (m_radius f))) <? to_u64 (m_minK f)
      then Insufficient else Ids (kdi_radius W id (m_radius f))
    else Ids (kdi_neighbors W id (to_u64 (m_knn f + 1)) (m_stride f)).
Proof.
  intros Ho Ha Hk. unfold findNeighbors. rewrite Ho, Ha.
  destruct (arg_set a); [reflexivity|].
  now apply Z.ltb_lt in Hk as ->.
Qed.

(** C1.  In a run with [optimized=false] the choice between the radius query
    and the [knn+1] query is meant to follow [m_radiusArg->set()], but the
    filter that [addArgs], [addDimensions] and [prepared] produce has never
    been given a value for [m_radiusArg]: the test dereferences an unassigned
    pointer, and the per-point code has no defined behaviour, whatever the
    options, the view and the point. *)
Theorem radius_handle_unassigned o layout f layout' view id :
  initialize Layout registerOrAssignDim findDim o layout = Returned (f, layout') ->
  o_optimized o <> Some true ->
  m_radiusArg f = None /\ setDimensionality W f view id = Undefined.
Proof.
  intros Hi Ho. apply initialize_members in Hi as (Hr & Hopt & _).
  split; [assumption|].
  unfold setDimensionality, findNeighbors. rewrite Hopt, Hr.
  destruct (o_optimized o) as [[|]|]; [congruence| |]; reflexivity.
Qed.

(** What lines 166-173 do once [m_radiusArg] designates the given radius
    argument: a point whose radius query finds fewer than [min_k] neighbours
    is left as it was and the loop goes on with the next point. *)
Lemma insufficient_neighbourhood_skipped f view id a rest :
  m_optimal f = false -> m_radiusArg f = Some a -> arg_set a = true ->
  m_minK f <= INT_MAX ->
  Z.of_nat (length (kdi_radius W id (m_radius f))) < m_minK f ->
  setDimensionality W f view id = Returned view
  /\ forEachPoint W f (id :: rest) view = forEachPoint W f rest view.
Proof.
  intros Ho Ha Hs Hmax Hlt.
  assert (E : setDimensionality W f view id = Returned view).
  { unfold setDimensionality, findNeighbors. rewrite Ho, Ha, Hs.
    assert (Hm : to_u64 (m_minK f) = m_minK f).
    { unfold to_u64. apply Z.mod_small. unfold INT_MAX, U64_MOD in *. lia. }
    rewrite Hm. now apply Z.ltb_lt in Hlt as ->. }
  split; [exact E|]. simpl. now rewrite E.
Qed.

(** C6.  A point whose radius query finds fewer than [min_k] neighbours is
    meant to be skipped without error (the comment and the [return] of lines
    169-173), but in a run with a [radius] given the skip is never reached:
    the filter the stage builds has no value in [m_radiusArg], the test of
    line 165 that guards the radius branch has no defined behaviour, and the
    call does not return the view unchanged. *)
Theorem radius_skip_never_reached o layout f layout' view id r :
  initialize Layout registerOrAssignDim findDim o layout = Returned (f, layout') ->
  o_optimized o <> Some true ->
  o_radius o = Some r ->
  Z.of_nat (length (kdi_radius W id (m_radius f))) < m_minK f ->
  m_radius f = r
  /\ setDimensionality W f view id = Undefined
  /\ setDimensionality W f view id <> Returned view.
Proof.
  intros Hi Ho Hr _. apply initialize_members in Hi as (Hnone & Hopt & _ & Hrad).
  assert (E : setDimensionality W f view id = Undefined).
  { unfold setDimensionality, findNeighbors. rewrite Hopt, Hnone.
    destruct (o_optimized o) as [[|]|]; [congruence| |]; reflexivity. }
  split; [rewrite Hrad, Hr; reflexivity|]. split; [exact E|].
  rewrite E. discriminate.
Qed.

End Selection.

(** ** Hard errors *)

Section Errors.

Context (W : Collaborators).



End Errors.

(** ** Registration *)

Section Registry.

Variable Layout : Type.
Variable registerOrAssignDim : Layout -> string -> Layout * DimId.

Lemma registerAll_lookup names : forall m layout name,
  (In name names ->
     is_Some ((registerAll Layout registerOrAssignDim names m layout).1 !! name))
  /\ (~ In name names ->
        (registerAll Layout registerOrAssignDim names m layout).1 !! name = m !! name)
  /\ (is_Some (m !! name) ->
        is_Some ((registerAll Layout registerOrAssignDim names m layout).1 !! name)).
Proof.
  induction names as [|dim rest IH]; intros m layout name; simpl.
  - repeat split; tauto.
  - destruct (registerOrAssignDim layout dim) as [layout' d].
    destruct (IH (<[dim := d]> m) layout' name) as (IH1 & IH2 & IH3).
    assert (Hkeep : is_Some (m !! name) -> is_Some (<[dim := d]> m !! name)).
    { intros Hs. destruct (decide (dim = name)) as [->|Hne].
      - rewrite lookup_insert_eq. eauto.
      - now rewrite lookup_insert_ne. }
    repeat split.
    + intros [-> | Hin]; [|auto]. apply IH3. rewrite lookup_insert_eq. eauto.
    + intros Hnot. rewrite IH2 by tauto. apply lookup_insert_ne. tauto.
    + auto.
Qed.


(** The preset, for comparison: it registers its four features and sets
    [m_mode] to ["SQRT"] whatever mode was configured. *)
Lemma dimensionality_forces_sqrt o layout :
  o_features o = None ->
  default "Dimensionality"%string (o_feature_set o) = "Dimensionality"%string ->
  exists f' layout',
    addDimensions Layout registerOrAssignDim (addArgs o newFilter) layout
      = Returned (f', layout')
    /\ m_mode f' = "SQRT"%string
    /\ forall name, is_Some (m_extraDims f' !! name) <-> In name dimensionalityFeatures.
Proof.
  intros Hf Hs. unfold addDimensions.
  cbn [m_featuresArg addArgs arg_set m_featureSet m_features m_extraDims newFilter].
  rewrite Hf. rewrite bool_decide_eq_false_2 by (intros [? ?]; discriminate).
  rewrite Hs. cbn [String.eqb Ascii.eqb Bool.eqb].
  cbn [with_mode m_extraDims addArgs newFilter].
  destruct (registerAll Layout registerOrAssignDim dimensionalityFeatures ∅ layout)
    as [m layout'] eqn:E.
  eexists _, layout'.
  split; [reflexivity|]. split; [reflexivity|].
  intros name. cbn [m_extraDims with_extraDims].
  destruct (registerAll_lookup dimensionalityFeatures ∅ layout name) as (H1 & H2 & _).
  rewrite E in H1, H2. simpl fst in H1, H2. split.
  - intros Hsome.
    destruct (in_dec string_dec name dimensionalityFeatures) as [Hin|Hnot]; [assumption|].
    rewrite H2, lookup_empty in Hsome by assumption. now destruct Hsome.
  - exact H1.
Qed.

End Registry.

(** ** The values written *)

Section Written.

Context (W : Collaborators).
Local Open Scope R_scope.

Lemma density_value (k : Z) (r : R) :
  0 < r -> density k (Fin r) = Fin ((IZR k + 1) / (PI * r ^ 3)).
Proof.
  intros Hr. unfold density. rewrite four_atan_one, pow3_Fin.
  change (Z.quot 4 3) with 1%Z. unfold of_Z, add, mul.
  assert (Hpi := PI_RGT_0).
  assert (Hr3 : 0 < r ^ 3) by (apply pow_lt; assumption).
  rewrite div_Fin by nra. f_equal. field. split; lra.
Qed.

Lemma four_thirds_differs (x y : R) :
  0 < x -> 0 < y -> x / y <> x / (4 / 3 * y).
Proof.
  intros Hx Hy Heq.
  assert (Hq : 0 < x / y) by (apply Rdiv_lt_0_compat; assumption).
  replace (x / (4 / 3 * y)) with (3 / 4 * (x / y)) in Heq by (field; lra).
  lra.
Qed.

(** C2.  In precomputed mode, with [Density] registered, the slot receives
    [(kopt + 1) / (pi * ropt^3)]: the factor [4 / 3] of the source is a
    quotient of integers and is 1.  The value differs from
    [(kopt + 1) / ((4/3) * pi * ropt^3)] at every point with a positive
    radius. *)
Theorem density_without_four_thirds f view id d (k : Z) (r : R) :
  m_optimal f = true ->
  m_extraDims f !! "Density"%string = Some d ->
  let ids := kdi_neighbors W id (getFieldAs_uint64 W id (m_kopt f)) 1 in
  is_Success (info (solve W (computeCovariance W ids))) = true ->
  eqb (max (eigenvalues (solve W (computeCovariance W ids)) 2%nat) zero) zero = false ->
  getFieldAs_uint64 W id (m_kopt f) = k -> (0 <= k)%Z ->
  getFieldAs_double W id (m_ropt f) = Fin r -> 0 < r ->
  exists v, setDimensionality W f view id = Returned v
    /\ getField v id d = Some (Fin ((IZR k + 1) / (PI * r ^ 3)))
    /\ (IZR k + 1) / (PI * r ^ 3) <> (IZR k + 1) / (4 / 3 * (PI * r ^ 3)).
Proof.
  intros Ho Hd ids Hs Hz Hk Hk0 Hr Hr0.
  assert (Hn : findNeighbors W f id = Ids ids) by (unfold findNeighbors; now rewrite Ho).
  rewrite (setDimensionality_computes W f view id ids Hn Hs Hz). cbv zeta.
  eexists. split; [reflexivity|]. split.
  - unfold writeFeatures. rewrite Ho, Hk, Hr, density_value by assumption.
    now apply getField_setFeature_eq.
  - apply four_thirds_differs.
    + assert (0 <= IZR k) by (apply IZR_le in Hk0; assumption). lra.
    + assert (Hpi := PI_RGT_0). assert (0 < r ^ 3) by (apply pow_lt; assumption). nra.
Qed.

(** Outside precomputed mode the [Density] slot is not written. *)
Lemma density_only_in_precomputed_mode f view id d v :
  m_optimal f = false ->
  dims_distinct (m_extraDims f) ->
  m_extraDims f !! "Density"%string = Some d ->
  setDimensionality W f view id = Returned v ->
  getField v id d = getField view id d.
Proof.
  intros Ho Hdist Hd. unfold setDimensionality.
  destruct (findNeighbors W f id) as [ids| |]; [| intros H; now inversion H | discriminate].
  cbv zeta. destruct (negb _); [discriminate|].
  destruct (eqb _ _); [discriminate|].
  intros H; inversion H; subst. rewrite writeFeatures_rows.
  apply writeRows_untouched with (name := "Density"%string); auto.
  unfold featureRows. rewrite Ho. simpl. intuition discriminate.
Qed.

Lemma eigenentropy_positive a b c :
  0 < a -> 0 < b -> 0 < c ->
  eigenentropy [Fin a; Fin b; Fin c]
  = Fin (- (c * ln c + b * ln b + a * ln a)).
Proof.
  intros Ha Hb Hc. unfold eigenentropy, at_. simpl nth.
  now rewrite !log_Fin by assumption.
Qed.

Lemma mul_Fin_log_zero : mul (Fin 0) (log (Fin 0)) = NaN.
Proof. exact mul_zero_log_zero. Qed.

Lemma term_not_NInf a : 0 <= a -> mul (Fin a) (log (Fin a)) = NaN
                                  \/ exists r, mul (Fin a) (log (Fin a)) = Fin r.
Proof.
  intros Ha. destruct (Req_dec_T a 0) as [->|Hne].
  - left. apply mul_Fin_log_zero.
  - right. rewrite log_Fin by lra. simpl. eauto.
Qed.

Lemma eigenentropy_zero a b c :
  0 <= a -> 0 <= b -> 0 <= c -> a = 0 \/ b = 0 \/ c = 0 ->
  eigenentropy [Fin a; Fin b; Fin c] = NaN.
Proof.
  intros Ha Hb Hc Hz. unfold eigenentropy, at_. simpl nth.
  destruct (term_not_NInf a Ha) as [Ea | [ra Ea]];
  destruct (term_not_NInf b Hb) as [Eb | [rb Eb]];
  destruct (term_not_NInf c Hc) as [Ec | [rc Ec]];
    rewrite Ea, Eb, Ec; try reflexivity.
  exfalso. destruct Hz as [-> | [-> | ->]].
  - rewrite mul_Fin_log_zero in Ea. discriminate.
  - rewrite mul_Fin_log_zero in Eb. discriminate.
  - rewrite mul_Fin_log_zero in Ec. discriminate.
Qed.

(** C3 (as the code has it).  The [Eigenentropy] slot receives
    [-(l2*log(l2) + l1*log(l1) + l0*log(l0))] of the scaled eigenvalues with
    no test on them.  When the three are positive this is the finite sum
    [-(l2 ln l2 + l1 ln l1 + l0 ln l0)]; when one of them is 0 its term is
    [0 * log 0 = 0 * -inf] and the value written is NaN. *)
Theorem eigenentropy_unguarded f view id ids d a b c :
  findNeighbors W f id = Ids ids ->
  let s := solve W (computeCovariance W ids) in
  let raw := clampedSpectrum (eigenvalues s) in
  is_Success (info s) = true ->
  eqb (max (eigenvalues s 2%nat) zero) zero = false ->
  dims_distinct (m_extraDims f) ->
  m_extraDims f !! "Eigenentropy"%string = Some d ->
  scaleEigenvalues (m_mode f) (accumulate raw zero) raw = [Fin a; Fin b; Fin c] ->
  0 <= a -> 0 <= b -> 0 <= c ->
  exists v, setDimensionality W f view id = Returned v
    /\ (0 < a -> 0 < b -> 0 < c ->
          getField v id d = Some (Fin (- (c * ln c + b * ln b + a * ln a))))
    /\ (a = 0 \/ b = 0 \/ c = 0 -> getField v id d = Some NaN).
Proof.
  intros Hn s raw Hs Hz Hdist Hd Hscaled Ha Hb Hc.
  rewrite (setDimensionality_computes W f view id ids Hn Hs Hz). cbv zeta.
  fold s. fold raw. rewrite Hscaled.
  eexists. split; [reflexivity|].
  assert (Hread : forall x, eigenentropy [Fin a; Fin b; Fin c] = x ->
            getField (writeFeatures W f id [Fin a; Fin b; Fin c] (accumulate raw zero)
                        (eigenvectors s) view) id d = Some x).
  { intros x <-. apply writeFeatures_read with (name := "Eigenentropy"%string); auto.
    unfold featureRows. apply in_or_app. left. simpl. tauto. }
  split.
  - intros Ha' Hb' Hc'. apply Hread. now apply eigenentropy_positive.
  - intros Hzero. apply Hread. now apply eigenentropy_zero.
Qed.

(** C4.  Whatever [m_mode] is, [sum] is the sum of the clamped eigenvalues,
    taken before they are scaled; it is what ["NORM"] divides by, what the
    [Sum] slot receives, and what the scaled smallest eigenvalue is divided
    by for [SurfaceVariation]. *)
Theorem sum_taken_before_scaling f view id ids dSum dVar :
  findNeighbors W f id = Ids ids ->
  let s := solve W (computeCovariance W ids) in
  let raw := clampedSpectrum (eigenvalues s) in
  let sum := add (add (add zero raw.[0]) raw.[1]) raw.[2] in
  is_Success (info s) = true ->
  eqb (max (eigenvalues s 2%nat) zero) zero = false ->
  dims_distinct (m_extraDims f) ->
  m_extraDims f !! "Sum"%string = Some dSum ->
  m_extraDims f !! "SurfaceVariation"%string = Some dVar ->
  exists v, setDimensionality W f view id = Returned v
    /\ getField v id dSum = Some sum
    /\ getField v id dVar = Some (div (scaleEigenvalues (m_mode f) sum raw).[2] sum)
    /\ (m_mode f = "NORM"%string ->
          scaleEigenvalues (m_mode f) sum raw = map (fun l => div l sum) raw).
Proof.
  intros Hn s raw sum Hs Hz Hdist HdS HdV.
  rewrite (setDimensionality_computes W f view id ids Hn Hs Hz). cbv zeta.
  fold s. fold raw. change (accumulate raw zero) with sum.
  eexists. split; [reflexivity|]. split; [|split].
  - apply writeFeatures_read with (name := "Sum"%string); auto.
    unfold featureRows. apply in_or_app. left. simpl. tauto.
  - apply writeFeatures_read with (name := "SurfaceVariation"%string); auto.
    unfold featureRows. apply in_or_app. left. simpl. tauto.
  - intros ->. reflexivity.
Qed.

End Written.

(** ** The spectrum and the shape features *)

Section Spectrum.

Local Open Scope R_scope.

Lemma clampedSpectrum_Fin ev e0 e1 e2 :
  ev 0%nat = Fin e0 -> ev 1%nat = Fin e1 -> ev 2%nat = Fin e2 ->
  clampedSpectrum ev = [Fin (Rmax e2 0); Fin (Rmax e1 0); Fin (Rmax e0 0)].
Proof.
  intros H0 H1 H2. unfold clampedSpectrum. now rewrite H0, H1, H2, !max_zero_Fin.
Qed.

Lemma accumulate_Fin a b c :
  accumulate [Fin a; Fin b; Fin c] zero = Fin (0 + a + b + c).
Proof. reflexivity. Qed.

Lemma ratio_in_unit x y : 0 <= x <= y -> 0 < y -> 0 <= x / y <= 1.
Proof.
  intros Hx Hy. pose proof (Rinv_0_lt_compat y Hy) as Hi.
  assert (Hone : y * / y = 1) by (field; lra).
  unfold Rdiv. split; nra.
Qed.

Lemma ratio_mono x y s : y <= x -> 0 < s -> y / s <= x / s.
Proof.
  intros Hxy Hs. pose proof (Rinv_0_lt_compat s Hs). unfold Rdiv. nra.
Qed.

(** The scaled triple is again non-increasing and non-negative, with a
    positive head. *)
Lemma scaled_spectrum mode a b c :
  a >= b -> b >= c -> c >= 0 -> a > 0 ->
  exists a' b' c',
    scaleEigenvalues mode (accumulate [Fin a; Fin b; Fin c] zero) [Fin a; Fin b; Fin c]
      = [Fin a'; Fin b'; Fin c']
    /\ a' >= b' /\ b' >= c' /\ c' >= 0 /\ a' > 0.
Proof.
  intros Hab Hbc Hc Ha. unfold scaleEigenvalues.
  destruct (String.eqb mode "SQRT").
  - exists (R_sqrt.sqrt a), (R_sqrt.sqrt b), (R_sqrt.sqrt c). cbn [map].
    rewrite !sqrt_Fin by lra. split; [reflexivity|].
    repeat split.
    + apply Rle_ge, sqrt_le_1_alt. lra.
    + apply Rle_ge, sqrt_le_1_alt. lra.
    + apply Rle_ge, sqrt_pos.
    + apply sqrt_lt_R0. lra.
  - destruct (String.eqb mode "NORM").
    + rewrite accumulate_Fin. set (s := 0 + a + b + c).
      assert (Hs : 0 < s) by (unfold s; lra).
      assert (Hcs : c <= s) by (unfold s; lra).
      exists (a / s), (b / s), (c / s). cbn [map].
      rewrite !div_Fin by lra. split; [reflexivity|].
      repeat split.
      * apply Rle_ge, ratio_mono; lra.
      * apply Rle_ge, ratio_mono; lra.
      * apply Rle_ge. apply (ratio_in_unit c s); lra.
      * apply Rdiv_lt_0_compat; lra.
    + exists a, b, c. repeat split; assumption.
Qed.


(** The reversed, clamped triple and its scaled forms are ordered. *)
Lemma spectrum_ordered e0 e1 e2 :
  e0 <= e1 -> e1 <= e2 ->
  let raw := [Fin (Rmax e2 0); Fin (Rmax e1 0); Fin (Rmax e0 0)] in
  ordered_nonneg raw
  /\ (Rmax e2 0 <> 0 ->
      forall mode, ordered_nonneg (scaleEigenvalues mode (accumulate raw zero) raw)).
Proof.
  intros H01 H12 raw.
  assert (Hord : Rmax e2 0 >= Rmax e1 0 /\ Rmax e1 0 >= Rmax e0 0 /\ Rmax e0 0 >= 0).
  { unfold Rmax. repeat destruct (Rle_dec _ _); lra. }
  destruct Hord as (Ha & Hb & Hc). split.
  - exists (Rmax e2 0), (Rmax e1 0), (Rmax e0 0). auto.
  - intros Hnz mode.
    assert (Hpos : Rmax e2 0 > 0) by lra.
    destruct (scaled_spectrum mode _ _ _ Ha Hb Hc Hpos) as (a' & b' & c' & E & ? & ? & ? & _).
    exists a', b', c'. auto.
Qed.


End Spectrum.

(** ** The dispatcher *)

Section Dispatcher.

Context (W : Collaborators).

Lemma forEachPoint_threads f n ids : forall view,
  forEachPoint W (with_threads f n) ids view = forEachPoint W f ids view.
Proof.
  induction ids as [|i ids IH]; intros view; [reflexivity|]. simpl.
  change (setDimensionality W (with_threads f n) view i)
    with (setDimensionality W f view i).
  destruct (setDimensionality W f view i); auto.
Qed.

Lemma filter_single_thread f view :
  0 <= pv_size view ->
  filter W (with_threads f 1) view = forEachPoint W f (idRange 0 (pv_size view)) view.
Proof.
  intros HN. unfold filter. cbn [m_threads with_threads]. simpl.
  rewrite app_nil_r. unfold threadRange, threadStart, threadEnd. simpl.
  rewrite Z.mul_0_l. unfold to_u64. rewrite Z.mod_0_l by (unfold U64_MOD; lia).
  rewrite Z.div_0_l by (unfold U64_MOD; rewrite Z.mod_small; lia).
  apply forEachPoint_threads.
Qed.

(** *** Independence of the order of the points

    The threads run at the same time.  What a point receives does not depend
    on the view, and two points write different slots: the calls for two
    points can be exchanged, and every order of the calls gives the same
    view. *)

Lemma setField_commute view i d x j d' y :
  (i, d) <> (j, d') ->
  setField (setField view i d x) j d' y = setField (setField view j d' y) i d x.
Proof.
  intros Hne. unfold setField. simpl. f_equal. apply insert_insert_ne. congruence.
Qed.

Lemma setFeature_commute f view i n x j n' y :
  i <> j ->
  setFeature f i n x (setFeature f j n' y view)
  = setFeature f j n' y (setFeature f i n x view).
Proof.
  intros Hne. unfold setFeature.
  destruct (m_extraDims f !! n), (m_extraDims f !! n'); try reflexivity.
  apply setField_commute. congruence.
Qed.

Lemma writeRows_setFeature f i rows j n y : forall view,
  i <> j ->
  writeRows f i rows (setFeature f j n y view)
  = setFeature f j n y (writeRows f i rows view).
Proof.
  induction rows as [|[m x] rows IH]; intros view Hne; [reflexivity|].
  unfold writeRows in *. simpl.
  rewrite setFeature_commute by assumption. now apply IH.
Qed.

Lemma writeRows_commute f i rows j rows' : forall view,
  i <> j ->
  writeRows f i rows (writeRows f j rows' view)
  = writeRows f j rows' (writeRows f i rows view).
Proof.
  induction rows' as [|[m x] rows' IH]; intros view Hne; [reflexivity|].
  unfold writeRows at 2 4. simpl.
  change (fold_left ?g rows' ?v) with (writeRows f j rows' v).
  rewrite IH by assumption. now rewrite writeRows_setFeature.
Qed.

(** The three shapes of a call, none of which looks at the view. *)
Lemma setDimensionality_shape f id :
  (forall view, setDimensionality W f view id = Undefined)
  \/ (exists msg, forall view, setDimensionality W f view id = Thrown msg view)
  \/ (exists rows, forall view,
        setDimensionality W f view id = Returned (writeRows f id rows view)).
Proof.
  unfold setDimensionality. destruct (findNeighbors W f id) as [ids| |].
  - cbv zeta. destruct (negb _); [right; left; eauto|].
    destruct (eqb _ _); [right; left; eauto|].
    right; right. eexists. intros view. now rewrite writeFeatures_rows.
  - right; right. exists []. reflexivity.
  - now left.
Qed.

Lemma setDimensionality_swap f view i j v1 v2 :
  setDimensionality W f view i = Returned v1 ->
  setDimensionality W f v1 j = Returned v2 ->
  exists v1', setDimensionality W f view j = Returned v1'
              /\ setDimensionality W f v1' i = Returned v2.
Proof.
  intros Hi Hj. destruct (decide (i = j)) as [->|Hne]; [eauto|].
  destruct (setDimensionality_shape f i) as [Ui | [[mi Ti] | [ri Ri]]];
    [rewrite Ui in Hi; discriminate | rewrite Ti in Hi; discriminate |].
  destruct (setDimensionality_shape f j) as [Uj | [[mj Tj] | [rj Rj]]];
    [rewrite Uj in Hj; discriminate | rewrite Tj in Hj; discriminate |].
  rewrite Ri in Hi. rewrite Rj in Hj. inversion Hi; inversion Hj; subst.
  eexists. split; [apply Rj|]. rewrite Ri. f_equal.
  now apply writeRows_commute.
Qed.

Lemma forEachPoint_order f ids ids' :
  Permutation ids ids' ->
  forall view v, forEachPoint W f ids view = Returned v ->
                 forEachPoint W f ids' view = Returned v.
Proof.
  induction 1 as [|x l l' _ IH|x y l|l l' l'' _ IH1 _ IH2]; intros view v Hrun.
  - assumption.
  - simpl in *. destruct (setDimensionality W f view x); try discriminate. auto.
  - simpl in *.
    destruct (setDimensionality W f view y) as [v1| |] eqn:Ey; try discriminate.
    destruct (setDimensionality W f v1 x) as [v2| |] eqn:Ex; try discriminate.
    destruct (setDimensionality_swap f view y x v1 v2 Ey Ex) as (v1' & -> & ->).
    assumption.
  - auto.
Qed.

(** X19.  A run that completes gives the view of the run with one thread, in
    whatever order the points of the ranges are taken. *)
Lemma any_order_same_view f view order v :
  1 <= m_threads f <= INT_MAX ->
  0 <= pv_size view ->
  m_threads f * pv_size view < U64_MOD ->
  Permutation order
    (concat (map (threadRange (pv_size view) (m_threads f)) (threadIds (m_threads f)))) ->
  forEachPoint W f order view = Returned v ->
  filter W (with_threads f 1) view = Returned v.
Proof.
  intros HT HN Hw Hperm Hrun. rewrite filter_single_thread by assumption.
  rewrite all_ranges in Hperm by assumption.
  now apply (forEachPoint_order f order).
Qed.

(** C9 (as the code has it).  When the products [t * N] do not wrap around
    in 64 bits (that is, [T * N < 2^64]), the range of thread [t] is
    [t*N/T, (t+1)*N/T), the ranges of the [T >= 1] threads are contiguous,
    every id of [0, N) lies in exactly one of them and nothing else does,
    and the run gives what the run with one thread gives. *)
Theorem partition_preserves_results f view :
  1 <= m_threads f <= INT_MAX ->
  0 <= pv_size view ->
  m_threads f * pv_size view < U64_MOD ->
  (forall t, 0 <= t < m_threads f ->
     threadStart (pv_size view) (m_threads f) t = t * pv_size view / m_threads f
     /\ threadEnd (pv_size view) (m_threads f) t
        = (t + 1) * pv_size view / m_threads f)
  /\ contiguous (pv_size view) (m_threads f)
  /\ exactly_once (pv_size view) (m_threads f)
  /\ filter W f view = filter W (with_threads f 1) view.
Proof.
  intros HT HN Hw. split; [|split; [|split]].
  - intros t Ht. split.
    + apply threadStart_exact; (assumption || lia).
    + apply threadEnd_exact; (assumption || lia).
  - now apply contiguous_ranges.
  - now apply exactly_once_ranges.
  - rewrite filter_single_thread by assumption. unfold filter.
    destruct (Z.ltb_spec (m_threads f) 0) as [Hneg|_]; [lia|].
    now rewrite all_ranges.
Qed.

End Dispatcher.

(** ** The code on explicit inputs *)

Lemma same_second_same_first (l : list (string * DimId)) : forall n1 n2 d,
  NoDup (map snd l) -> In (n1, d) l -> In (n2, d) l -> n1 = n2.
Proof.
  induction l as [|[n x] l IH]; intros n1 n2 d Hnd H1 H2; [destruct H1|].
  simpl in Hnd. apply NoDup_cons in Hnd as [Hhead Htail].
  assert (Hin : forall n', In (n', x) l -> False).
  { intros n' Hn'. apply Hhead. apply list_elem_of_In.
    change x with (snd (n', x)). now apply in_map. }
  destruct H1 as [E1|H1], H2 as [E2|H2].
  - congruence.
  - inversion E1; subst. now apply Hin in H2.
  - inversion E2; subst. now apply Hin in H1.
  - eapply IH; eassumption.
Qed.

Lemma dims_distinct_NoDup (m : gmap string DimId) :
  NoDup (map snd (map_to_list m)) -> dims_distinct m.
Proof.
  intros Hnd n1 n2 d H1 H2.
  apply elem_of_map_to_list, list_elem_of_In in H1.
  apply elem_of_map_to_list, list_elem_of_In in H2.
  eapply same_second_same_first; eassumption.
Qed.

Lemma nondegenerate_Fin e : (0 < e)%R -> eqb (max (Fin e) zero) zero = false.
Proof.
  intros He. rewrite max_zero_Fin. apply Reqb_false.
  unfold Rmax. destruct (Rle_dec e 0); lra.
Qed.

Lemma Rmax_pos e : (0 <= e)%R -> Rmax e 0 = e.
Proof. intros He. unfold Rmax. destruct (Rle_dec e 0); lra. Qed.

Lemma Rmax_neg e : (e <= 0)%R -> Rmax e 0 = 0%R.
Proof. intros He. unfold Rmax. destruct (Rle_dec e 0); lra. Qed.

Section Slots.

Context (W : Collaborators).

(** Every registered feature of a point that is processed holds the value of
    its row. *)
Lemma setDimensionality_slots f view id ids :
  findNeighbors W f id = Ids ids ->
  let s := solve W (computeCovariance W ids) in
  let raw := clampedSpectrum (eigenvalues s) in
  let sum := accumulate raw zero in
  is_Success (info s) = true ->
  eqb (max (eigenvalues s 2%nat) zero) zero = false ->
  dims_distinct (m_extraDims f) ->
  exists v, setDimensionality W f view id = Returned v
    /\ forall name x d,
         In (name, x)
            (featureRows W f id (scaleEigenvalues (m_mode f) sum raw) sum (eigenvectors s)) ->
         m_extraDims f !! name = Some d -> getField v id d = Some x.
Proof.
  intros Hn s raw sum Hs Hz Hdist.
  rewrite (setDimensionality_computes W f view id ids Hn Hs Hz). cbv zeta.
  eexists. split; [reflexivity|].
  intros name x d Hin Hd. now apply writeFeatures_read with (name := name).
Qed.

(** A point that is processed leaves the other points and the size of the
    view as they were. *)
Lemma setDimensionality_frame f view id v :
  setDimensionality W f view id = Returned v ->
  pv_size v = pv_size view
  /\ forall id' d, id <> id' -> getField v id' d = getField view id' d.
Proof.
  unfold setDimensionality.
  destruct (findNeighbors W f id) as [ids| |]; [| intros H; now inversion H | discriminate].
  cbv zeta. destruct (negb _); [discriminate|].
  destruct (eqb _ _); [discriminate|].
  intros H; inversion H; subst. rewrite writeFeatures_rows. split.
  - apply writeRows_size.
  - intros id' d Hne. now apply writeRows_other_point.
Qed.

(** C8 (as the code has it).  The solver's ascending eigenvalues are taken
    in reverse order, each replaced by 0 when negative, and reach the
    formulas in this form only: the triple is non-increasing and
    non-negative, ties included (the order is not strict), and so is the
    scaled triple from which the features of the point are written, in
    every mode. *)
Theorem spectrum_reversed_and_clamped f view id ids e0 e1 e2 :
  findNeighbors W f id = Ids ids ->
  let s := solve W (computeCovariance W ids) in
  is_Success (info s) = true ->
  eigenvalues s 0%nat = Fin e0 -> eigenvalues s 1%nat = Fin e1 ->
  eigenvalues s 2%nat = Fin e2 ->
  (e0 <= e1)%R -> (e1 <= e2)%R -> Rmax e2 0 <> 0%R ->
  let raw := [Fin (Rmax e2 0); Fin (Rmax e1 0); Fin (Rmax e0 0)] in
  let sum := accumulate raw zero in
  clampedSpectrum (eigenvalues s) = raw
  /\ ordered_nonneg raw
  /\ ordered_nonneg (scaleEigenvalues (m_mode f) sum raw)
  /\ setDimensionality W f view id
     = Returned (writeFeatures W f id (scaleEigenvalues (m_mode f) sum raw) sum
                  (eigenvectors s) view).
Proof.
  intros Hn s Hs H0 H1 H2 H01 H12 Hnz raw sum.
  assert (Hraw : clampedSpectrum (eigenvalues s) = raw)
    by (now apply clampedSpectrum_Fin).
  destruct (spectrum_ordered e0 e1 e2 H01 H12) as [Hord Hscaled].
  split; [exact Hraw|]. split; [exact Hord|]. split; [now apply Hscaled|].
  rewrite (setDimensionality_computes W f view id ids Hn Hs).
  - cbv zeta. fold s. rewrite Hraw. reflexivity.
  - fold s. rewrite H2, max_zero_Fin. now apply Reqb_false.
Qed.

End Slots.

Module SampleFacts.

Import Sample.

Lemma allOptimized_distinct mode : dims_distinct (m_extraDims (allOptimized mode)).
Proof.
  apply dims_distinct_NoDup. apply (bool_decide_unpack _). vm_compute. reflexivity.
Qed.

Lemma allOptimized_neighbours mode W id :
  findNeighbors W (allOptimized mode) id
  = Ids (kdi_neighbors W id (getFieldAs_uint64 W id (m_kopt (allOptimized mode))) 1).
Proof. reflexivity. Qed.

End SampleFacts.

(** ** Instances and counterexamples *)

Section Instances.

Import Sample SampleFacts.
Local Open Scope R_scope.

(** With no option given, and 4 points in the view, point 0 already has no
    defined behaviour. *)
Lemma radius_handle_unassigned_witness :
  m_radiusArg (configured noOptions) = None
  /\ setDimensionality (world Success (Fin 1) (Fin 2) (Fin 3) 5 10 (Fin 1))
       (configured noOptions) (emptyView 4) 0%Z = Undefined.
Proof.
  apply (radius_handle_unassigned Layout registerOrAssignDim findDim
           (world Success (Fin 1) (Fin 2) (Fin 3) 5 10 (Fin 1))
           noOptions layout0 (configured noOptions) (finalLayout noOptions)).
  - vm_compute. reflexivity.
  - discriminate.
Defined.

(** [kopt = 10], [ropt = 1]: the slot holds [11 / pi], not [11 / ((4/3) pi)]. *)
Lemma density_without_four_thirds_witness :
  exists v,
    setDimensionality (world Success (Fin 1) (Fin 2) (Fin 3) 0 10 (Fin 1))
      (allOptimized "") (emptyView 1) 0%Z = Returned v
    /\ getField v 0%Z 15%nat = Some (Fin ((IZR 10 + 1) / (PI * 1 ^ 3)))
    /\ (IZR 10 + 1) / (PI * 1 ^ 3) <> (IZR 10 + 1) / (4 / 3 * (PI * 1 ^ 3)).
Proof.
  apply (density_without_four_thirds
           (world Success (Fin 1) (Fin 2) (Fin 3) 0 10 (Fin 1))
           (allOptimized "") (emptyView 1) 0%Z 15%nat 10%Z 1).
  - vm_compute. reflexivity.
  - vm_compute. reflexivity.
  - reflexivity.
  - apply nondegenerate_Fin. lra.
  - reflexivity.
  - lia.
  - reflexivity.
  - lra.
Defined.

(** C3, counterexample.  A planar neighbourhood, eigenvalues 0, 1, 1, no
    scaling: the guarded sum of the specification is 0, the slot holds NaN. *)
Lemma eigenentropy_nan_on_planar_spectrum :
  exists v,
    setDimensionality (world Success (Fin 0) (Fin 1) (Fin 1) 0 10 (Fin 1))
      (allOptimized "") (emptyView 1) 0%Z = Returned v
    /\ getField v 0%Z 11%nat = Some NaN
    /\ eigenentropy_guarded [Fin 1; Fin 1; Fin 0] = Fin 0
    /\ getField v 0%Z 11%nat <> Some (eigenentropy_guarded [Fin 1; Fin 1; Fin 0]).
Proof.
  set (W := world Success (Fin 0) (Fin 1) (Fin 1) 0 10 (Fin 1)).
  destruct (setDimensionality_slots W (allOptimized "") (emptyView 1) 0%Z _
              (allOptimized_neighbours "" W 0%Z)) as (v & Hv & Hslots).
  - reflexivity.
  - apply nondegenerate_Fin. lra.
  - apply allOptimized_distinct.
  - assert (Hg : eigenentropy_guarded [Fin 1; Fin 1; Fin 0] = Fin 0).
    { unfold eigenentropy_guarded, guardedTerm, at_. simpl nth.
      unfold zero, eqb.
      rewrite Reqb_true, Reqb_false by lra. rewrite log_Fin by lra.
      unfold mul, add, neg. rewrite ln_1. f_equal. ring. }
    assert (Hn : getField v 0%Z 11%nat = Some NaN).
    { apply (Hslots "Eigenentropy"%string); [|vm_compute; reflexivity].
      apply in_or_app. left.
      replace NaN with (eigenentropy [Fin 1; Fin 1; Fin 0])
        by (apply eigenentropy_zero; lra).
      change (m_mode (allOptimized "")) with ""%string.
      unfold scaleEigenvalues. cbn [String.eqb].
      rewrite (clampedSpectrum_Fin _ 0 1 1) by reflexivity.
      rewrite !Rmax_pos by lra. simpl. tauto. }
    exists v. repeat split; try assumption.
    rewrite Hn, Hg. discriminate.
Qed.

(** Eigenvalues 1, 2, 3, no scaling. *)
Lemma eigenentropy_unguarded_witness :
  exists v,
    setDimensionality (world Success (Fin 1) (Fin 2) (Fin 3) 0 10 (Fin 1))
      (allOptimized "") (emptyView 1) 0%Z = Returned v
    /\ (0 < 3 -> 0 < 2 -> 0 < 1 ->
          getField v 0%Z 11%nat = Some (Fin (- (1 * ln 1 + 2 * ln 2 + 3 * ln 3))))
    /\ (3 = 0 \/ 2 = 0 \/ 1 = 0 -> getField v 0%Z 11%nat = Some NaN).
Proof.
  apply (eigenentropy_unguarded (world Success (Fin 1) (Fin 2) (Fin 3) 0 10 (Fin 1))
           (allOptimized "") (emptyView 1) 0%Z _ 11%nat 3 2 1
           (allOptimized_neighbours "" _ 0%Z)).
  - reflexivity.
  - apply nondegenerate_Fin. lra.
  - apply allOptimized_distinct.
  - vm_compute. reflexivity.
  - change (m_mode (allOptimized "")) with ""%string.
    unfold scaleEigenvalues. cbn [String.eqb].
    rewrite (clampedSpectrum_Fin _ 1 2 3) by reflexivity.
    rewrite !Rmax_pos by lra. reflexivity.
  - lra.
  - lra.
  - lra.
Defined.

(** Eigenvalues 0, 1, 4 under ["SQRT"]: the [Sum] slot holds the sum of
    4, 1, 0 and not that of 2, 1, 0. *)
Lemma sum_taken_before_scaling_witness :
  let W := world Success (Fin 0) (Fin 1) (Fin 4) 0 10 (Fin 1) in
  let raw := clampedSpectrum (eigenvalues (solve W tt)) in
  let sum := add (add (add zero raw.[0]) raw.[1]) raw.[2] in
  exists v,
    setDimensionality W (allOptimized "SQRT") (emptyView 1) 0%Z = Returned v
    /\ getField v 0%Z 10%nat = Some sum
    /\ getField v 0%Z 13%nat
       = Some (div (scaleEigenvalues (m_mode (allOptimized "SQRT")) sum raw).[2] sum)
    /\ (m_mode (allOptimized "SQRT") = "NORM"%string ->
          scaleEigenvalues (m_mode (allOptimized "SQRT")) sum raw
          = map (fun l => div l sum) raw).
Proof.
  intros W raw sum.
  apply (sum_taken_before_scaling W (allOptimized "SQRT") (emptyView 1) 0%Z _
           10%nat 13%nat (allOptimized_neighbours "SQRT" W 0%Z)).
  - reflexivity.
  - apply nondegenerate_Fin. lra.
  - apply allOptimized_distinct.
  - vm_compute. reflexivity.
  - vm_compute. reflexivity.
Defined.

(** The sum of the example above is 5. *)
Example sum_of_4_1_0 :
  let raw := clampedSpectrum (eigenvalues
               (solve (world Success (Fin 0) (Fin 1) (Fin 4) 0 10 (Fin 1)) tt)) in
  add (add (add zero raw.[0]) raw.[1]) raw.[2] = Fin 5
  /\ scaleEigenvalues "SQRT" (Fin 5) raw = [Fin 2; Fin 1; Fin 0].
Proof.
  cbv zeta. rewrite (clampedSpectrum_Fin _ 0 1 4) by reflexivity.
  rewrite !Rmax_pos by lra. split.
  - unfold at_, add, zero. simpl nth. f_equal. ring.
  - unfold scaleEigenvalues. cbn [String.eqb Ascii.eqb Bool.eqb map].
    rewrite !sqrt_Fin by lra.
    replace 4 with (2 * 2) by ring. rewrite sqrt_square by lra.
    now rewrite sqrt_1, sqrt_0.
Qed.


(** The same under ["NORM"]: 1/3 divided by 3/16 is 16/9. *)
Example surface_variation_exceeds_one_norm :
  let raw := [Fin (/ 16); Fin (/ 16); Fin (/ 16)] in
  let sum := accumulate raw zero in
  surfaceVariation (scaleEigenvalues "NORM" sum raw) sum = Fin (16 / 9).
Proof.
  cbv zeta. rewrite accumulate_Fin. unfold scaleEigenvalues.
  cbn [String.eqb Ascii.eqb Bool.eqb map].
  rewrite !div_Fin by lra.
  unfold surfaceVariation, at_. simpl nth. rewrite div_Fin by lra.
  f_equal. field.
Qed.


(** The branch on a filter whose [m_radiusArg] was made to designate the
    argument: two points found within the radius, [min_k = 3]. *)
Lemma insufficient_neighbourhood_skipped_example :
  let W := world Success (Fin 1) (Fin 2) (Fin 3) 2 10 (Fin 1) in
  setDimensionality W (allSearched true) (emptyView 2) 0%Z = Returned (emptyView 2)
  /\ forEachPoint W (allSearched true) [0%Z; 1%Z] (emptyView 2)
     = forEachPoint W (allSearched true) [1%Z] (emptyView 2).
Proof.
  intros W.
  apply (insufficient_neighbourhood_skipped W (allSearched true) (emptyView 2) 0%Z
           {| arg_set := true |} [1%Z]).
  - vm_compute. reflexivity.
  - reflexivity.
  - reflexivity.
  - vm_compute. discriminate.
  - vm_compute. reflexivity.
Defined.

(** [radius = 1] given, [min_k = 3], two points within the radius. *)
Lemma radius_skip_never_reached_witness :
  let W := world Success (Fin 1) (Fin 2) (Fin 3) 2 10 (Fin 1) in
  let f := configured (radiusOptions (Fin 1)) in
  m_radius f = Fin 1
  /\ setDimensionality W f (emptyView 2) 0%Z = Undefined
  /\ setDimensionality W f (emptyView 2) 0%Z <> Returned (emptyView 2).
Proof.
  intros W f.
  apply (radius_skip_never_reached Layout registerOrAssignDim findDim W
           (radiusOptions (Fin 1)) layout0 f (finalLayout (radiusOptions (Fin 1)))
           (emptyView 2) 0%Z (Fin 1)).
  - vm_compute. reflexivity.
  - discriminate.
  - reflexivity.
  - vm_compute. reflexivity.
Defined.

(** The radius argument not given: eleven neighbours are asked for. *)
Example knn_plus_one_requested W id :
  findNeighbors W (allSearched false) id = Ids (kdi_neighbors W id 11 1).
Proof.
  rewrite (findNeighbors_by_handle W (allSearched false) id {| arg_set := false |});
    [reflexivity | vm_compute; reflexivity | reflexivity | vm_compute; reflexivity].
Qed.


(** C8, counterexample.  The solver's eigenvalues -2, -1, 1 are strictly
    ascending; reversed and clamped they are 1, 0, 0. *)
Lemma clamping_creates_ties :
  let ev := fun i : nat => match i with O => Fin (-2) | S O => Fin (-1) | _ => Fin 1 end in
  clampedSpectrum ev = [Fin 1; Fin 0; Fin 0]
  /\ ~ strictly_decreasing (clampedSpectrum ev).
Proof.
  cbv zeta.
  assert (E : clampedSpectrum
                (fun i : nat => match i with O => Fin (-2) | S O => Fin (-1) | _ => Fin 1 end)
              = [Fin 1; Fin 0; Fin 0]).
  { rewrite (clampedSpectrum_Fin _ (-2) (-1) 1) by reflexivity.
    now rewrite Rmax_pos, !Rmax_neg by lra. }
  split; [exact E|].
  intros (a & b & c & Habc & Hab & Hbc). rewrite E in Habc. inversion Habc. lra.
Qed.

(** The eigenvalues -2, -1, 1, no scaling. *)
Lemma spectrum_reversed_and_clamped_witness :
  let W := world Success (Fin (-2)) (Fin (-1)) (Fin 1) 0 10 (Fin 1) in
  let raw := [Fin (Rmax 1 0); Fin (Rmax (-1) 0); Fin (Rmax (-2) 0)] in
  let sum := accumulate raw zero in
  clampedSpectrum (eigenvalues (solve W tt)) = raw
  /\ ordered_nonneg raw
  /\ ordered_nonneg (scaleEigenvalues (m_mode (allOptimized "")) sum raw)
  /\ setDimensionality W (allOptimized "") (emptyView 1) 0%Z
     = Returned (writeFeatures W (allOptimized "") 0%Z
                  (scaleEigenvalues (m_mode (allOptimized "")) sum raw) sum
                  (eigenvectors (solve W tt)) (emptyView 1)).
Proof.
  intros W.
  apply (spectrum_reversed_and_clamped W (allOptimized "") (emptyView 1) 0%Z _
           (-2) (-1) 1 (allOptimized_neighbours "" W 0%Z)).
  - reflexivity.
  - reflexivity.
  - reflexivity.
  - reflexivity.
  - lra.
  - lra.
  - rewrite Rmax_pos; lra.
Defined.

End Instances.

Section DispatcherInstances.

Import Sample.

(** C9, counterexample.  [N = 2^63] points and [T = 4] threads: [2 * N]
    wraps around to 0, thread 2 starts again at 0, and point 0 is visited by
    thread 0 and by thread 2. *)
Lemma wrapped_ranges_overlap :
  inThread (2 ^ 63) 4 0 0 /\ inThread (2 ^ 63) 4 2 0
  /\ ~ exactly_once (2 ^ 63) 4.
Proof.
  assert (H0 : inThread (2 ^ 63) 4 0 0) by (unfold inThread; vm_compute; intuition discriminate).
  assert (H2 : inThread (2 ^ 63) 4 2 0) by (unfold inThread; vm_compute; intuition discriminate).
  split; [exact H0|]. split; [exact H2|].
  intros [Hex _]. destruct (Hex 0) as (t & _ & Huniq); [vm_compute; intuition discriminate|].
  assert (E0 : 0 = t) by (apply Huniq; [lia | exact H0]).
  assert (E2 : 2 = t) by (apply Huniq; [lia | exact H2]).
  lia.
Qed.

(** Ten points, four threads. *)
Lemma partition_preserves_results_witness :
  let W := world Success (Fin 1) (Fin 2) (Fin 3) 0 10 (Fin 1) in
  let f := with_threads (allOptimized "") 4 in
  (forall t, 0 <= t < 4 ->
     threadStart 10 4 t = t * 10 / 4 /\ threadEnd 10 4 t = (t + 1) * 10 / 4)
  /\ contiguous 10 4 /\ exactly_once 10 4
  /\ filter W f (emptyView 10) = filter W (with_threads f 1) (emptyView 10).
Proof.
  intros W f.
  apply (partition_preserves_results W f (emptyView 10)).
  - vm_compute. intuition discriminate.
  - vm_compute. discriminate.
  - vm_compute. reflexivity.
Defined.

(** The four ranges of the example. *)
Example ranges_of_10_by_4 :
  map (fun t => (threadStart 10 4 t, threadEnd 10 4 t)) (threadIds 4)
  = [(0, 2); (2, 5); (5, 7); (7, 10)].
Proof. vm_compute. reflexivity. Qed.


End DispatcherInstances.

(** * Further properties of the stage *)

(** ** Registration and preparation *)

Section Lifecycle.

Variable Layout : Type.
Variable registerOrAssignDim : Layout -> string -> Layout * DimId.
Variable findDim : Layout -> string -> option DimId.



(** X3.  The stage is set up without undefined behaviour; it fails only in
    precomputed mode, and then exactly when the layout, after the features
    are registered, lacks [OptimalKNN] or [OptimalRadius]; when it succeeds
    in that mode, [m_kopt] and [m_ropt] are the two dimensions found. *)
Theorem initialize_fails_only_without_optimal_dims o layout :
  initialize Layout registerOrAssignDim findDim o layout <> Undefined
  /\ (o_optimized o <> Some true ->
        exists f layout', initialize Layout registerOrAssignDim findDim o layout
                          = Returned (f, layout'))
  /\ (forall msg s,
        initialize Layout registerOrAssignDim findDim o layout = Thrown msg s ->
        o_optimized o = Some true
        /\ (findDim (snd s) "OptimalKNN" = None
            \/ findDim (snd s) "OptimalRadius" = None))
  /\ (forall f layout',
        initialize Layout registerOrAssignDim findDim o layout = Returned (f, layout') ->
        o_optimized o = Some true ->
        findDim layout' "OptimalKNN" = Some (m_kopt f)
        /\ findDim layout' "OptimalRadius" = Some (m_ropt f)).
Proof.
  unfold initialize, addDimensions, prepared.
  cbn [m_featuresArg addArgs arg_set m_featureSet m_features m_extraDims].
  assert (Hopt : forall g m, m_optimal (with_extraDims g m) = m_optimal g) by reflexivity.
  destruct (bool_decide (is_Some (o_features o)));
    [| destruct (String.eqb _ _)];
    match goal with
    | |- context [registerAll ?L ?r ?n ?m ?l] =>
        destruct (registerAll L r n m l) as [m1 l1]
    end;
    cbn [m_optimal with_extraDims with_mode addArgs];
    (destruct (o_optimized o) as [[|]|]; cbn [default];
     [ destruct (findDim l1 "OptimalKNN") as [k|] eqn:Ek;
       [destruct (findDim l1 "OptimalRadius") as [r|] eqn:Er|]
     | | ]);
    (split; [discriminate|]);
    (split; [intros Hne; try congruence; eauto|]);
    (split; [intros msg s H; inversion H; subst; cbn [snd]; auto; try discriminate
            | intros f l' H Ho; inversion H; subst; try discriminate;
              cbn [m_kopt m_ropt with_optDims]; auto]).
Qed.

End Lifecycle.

(** ** What a call writes, and what it leaves alone *)

Section Footprint.

Context (W : Collaborators).

Lemma view_eq (a b : PointView) :
  pv_size a = pv_size b -> pv_fields a = pv_fields b -> a = b.
Proof. destruct a, b. simpl. intros -> ->. reflexivity. Qed.

Lemma writeRows_foreign_dim f id rows : forall view d,
  (forall name, In name (map fst rows) -> m_extraDims f !! name <> Some d) ->
  getField (writeRows f id rows view) id d = getField view id d.
Proof.
  induction rows as [|[n x] rows IH]; intros view d Hfor; [reflexivity|].
  unfold writeRows in *. simpl. rewrite IH.
  - unfold setFeature. destruct (m_extraDims f !! n) as [d0|] eqn:E; [|reflexivity].
    apply getField_setField_ne. intros Heq. inversion Heq; subst.
    apply (Hfor n); [simpl; auto | assumption].
  - intros name Hin. apply Hfor. simpl. auto.
Qed.

Lemma featureRows_names f id lambda sum vecs name :
  In name (map fst (featureRows W f id lambda sum vecs)) -> In name allFeatures.
Proof.
  unfold featureRows, allFeatures. destruct (m_optimal f); simpl; tauto.
Qed.

(** X4.  A call that returns has written nothing but slots of its own point
    that belong to dimensions registered under one of the eleven feature
    names: the size of the view, every other point, and every other
    dimension of the point (its coordinates, its optimal neighbourhood, a
    dimension registered under an unknown feature name) are as before. *)
Theorem setDimensionality_footprint f view id v :
  setDimensionality W f view id = Returned v ->
  pv_size v = pv_size view
  /\ forall id' d,
       id' <> id
       \/ (forall name, In name allFeatures -> m_extraDims f !! name <> Some d) ->
       getField v id' d = getField view id' d.
Proof.
  unfold setDimensionality.
  destruct (findNeighbors W f id) as [ids| |]; [| intros H; now inversion H | discriminate].
  cbv zeta. destruct (negb _); [discriminate|].
  destruct (eqb _ _); [discriminate|].
  intros H; inversion H; subst. rewrite writeFeatures_rows. split.
  - apply writeRows_size.
  - intros id' d [Hne | Hfor].
    + apply writeRows_other_point. congruence.
    + destruct (decide (id = id')) as [<-|Hne];
        [|now apply writeRows_other_point].
      apply writeRows_foreign_dim. intros name Hin.
      apply Hfor. eapply featureRows_names. eassumption.
Qed.

(** *** Running again *)

Lemma writeRows_lookup f id rows :
  exists g : PointId * DimId -> option double, forall view key,
    pv_fields (writeRows f id rows view) !! key
    = match g key with Some x => Some x | None => pv_fields view !! key end.
Proof.
  induction rows as [|[n x] rows [g Hg]].
  - exists (fun _ => None). reflexivity.
  - destruct (m_extraDims f !! n) as [d|] eqn:E.
    + exists (fun key => match g key with
                         | Some y => Some y
                         | None => if decide (key = (id, d)) then Some x else None
                         end).
      intros view key. unfold writeRows in *. simpl. rewrite Hg.
      destruct (g key); [reflexivity|].
      unfold setFeature. rewrite E. unfold setField. simpl.
      destruct (decide (key = (id, d))) as [->|Hne].
      * apply lookup_insert_eq.
      * apply lookup_insert_ne. congruence.
    + exists g. intros view key. unfold writeRows in *. simpl. rewrite Hg.
      unfold setFeature. now rewrite E.
Qed.

Lemma writeRows_twice f id rows view :
  writeRows f id rows (writeRows f id rows view) = writeRows f id rows view.
Proof.
  apply view_eq.
  - now rewrite !writeRows_size.
  - destruct (writeRows_lookup f id rows) as [g Hg].
    apply map_eq. intros key. rewrite !Hg. now destruct (g key).
Qed.

Lemma setDimensionality_again f view id v :
  setDimensionality W f view id = Returned v ->
  setDimensionality W f v id = Returned v.
Proof.
  intros H.
  destruct (setDimensionality_shape W f id) as [U | [[m T] | [rows R]]];
    [rewrite U in H; discriminate | rewrite T in H; discriminate |].
  rewrite R in H. inversion H; subst. rewrite R. f_equal. apply writeRows_twice.
Qed.

Lemma setDimensionality_returns_on f id a a1 b :
  setDimensionality W f a id = Returned a1 ->
  exists c, setDimensionality W f b id = Returned c.
Proof.
  intros H.
  destruct (setDimensionality_shape W f id) as [U | [[m T] | [rows R]]];
    [rewrite U in H; discriminate | rewrite T in H; discriminate |].
  rewrite R. eauto.
Qed.

Lemma fixed_point_kept f i ids : forall a b,
  setDimensionality W f a i = Returned a ->
  forEachPoint W f ids a = Returned b ->
  setDimensionality W f b i = Returned b.
Proof.
  induction ids as [|j ids IH]; intros a b Hi Hrun.
  - simpl in Hrun. inversion Hrun; subst. assumption.
  - simpl in Hrun.
    destruct (setDimensionality W f a j) as [a'| |] eqn:Ej; try discriminate.
    apply (IH a' b); [|assumption].
    destruct (setDimensionality_returns_on f i a a a' Hi) as [c Hc].
    destruct (setDimensionality_swap W f a j i a' c Ej Hc) as (a1 & Ha1 & Hj).
    rewrite Hi in Ha1. inversion Ha1; subst a1.
    rewrite Ej in Hj. inversion Hj; subst c. assumption.
Qed.

Lemma forEachPoint_again f ids : forall view v,
  forEachPoint W f ids view = Returned v ->
  forEachPoint W f ids v = Returned v.
Proof.
  induction ids as [|i ids IH]; intros view v Hrun; [reflexivity|].
  simpl in Hrun.
  destruct (setDimensionality W f view i) as [v'| |] eqn:Ei; try discriminate.
  simpl.
  rewrite (fixed_point_kept f i ids v' v (setDimensionality_again f view i v' Ei) Hrun).
  now apply (IH v').
Qed.

Lemma forEachPoint_size f ids : forall view v,
  forEachPoint W f ids view = Returned v -> pv_size v = pv_size view.
Proof.
  induction ids as [|i ids IH]; intros view v Hrun.
  - simpl in Hrun. now inversion Hrun.
  - simpl in Hrun.
    destruct (setDimensionality W f view i) as [v'| |] eqn:Ei; try discriminate.
    rewrite (IH v' v Hrun).
    now destruct (setDimensionality_frame W f view i v' Ei).
Qed.

(** X5.  The stage is idempotent: when a run of [filter] completes, running
    it again on its result completes too and changes nothing. *)
Theorem filter_twice f view v :
  filter W f view = Returned v -> filter W f v = Returned v.
Proof.
  unfold filter. destruct (m_threads f <? 0); [discriminate|].
  intros Hrun. rewrite (forEachPoint_size f _ view v Hrun).
  now apply (forEachPoint_again f _ view).
Qed.

(** X6.  With no thread, or with no point, [filter] returns the view as it
    is and calls the per-point code for no point: [threads = 0] silently
    computes nothing. *)
Theorem filter_nothing_to_do f view :
  m_threads f = 0 \/ (1 <= m_threads f <= INT_MAX /\ pv_size view = 0) ->
  filter W f view = Returned view.
Proof.
  intros [H0 | [HT HN]]; unfold filter.
  - rewrite H0. reflexivity.
  - destruct (Z.ltb_spec (m_threads f) 0) as [Hneg|_]; [lia|].
    rewrite all_ranges by (rewrite ?HN; unfold U64_MOD; lia).
    rewrite HN. reflexivity.
Qed.

(** X7.  In precomputed mode the per-point code is always defined (it never
    consults [m_radiusArg]) and depends on the filter only through
    [m_kopt], [m_ropt], [m_mode] and the registered dimensions: [knn],
    [stride], [radius], [min_k] and [threads] have no effect on a point. *)
Theorem optimized_ignores_search_options f f' view id :
  m_optimal f = true -> m_optimal f' = true ->
  m_kopt f' = m_kopt f -> m_ropt f' = m_ropt f ->
  m_mode f' = m_mode f -> m_extraDims f' = m_extraDims f ->
  setDimensionality W f view id <> Undefined
  /\ setDimensionality W f' view id = setDimensionality W f view id.
Proof.
  intros Ho Ho' Hk Hr Hm Hd.
  unfold setDimensionality, findNeighbors. rewrite Ho, Ho', Hk, Hm. cbv zeta.
  assert (Hw : forall lambda sum vecs v,
            writeFeatures W f' id lambda sum vecs v = writeFeatures W f id lambda sum vecs v).
  { intros. unfold writeFeatures, setFeature. now rewrite Ho, Ho', Hk, Hr, Hd. }
  destruct (negb _); [split; [discriminate | reflexivity]|].
  destruct (eqb _ _); [split; [discriminate | reflexivity]|].
  split; [discriminate|]. now rewrite Hw.
Qed.

(** X9.  A NaN eigenvalue is not caught: when the solver reports success
    and its largest eigenvalue is NaN, the test against 0 fails, nothing is
    thrown, and the point gets NaN for Linearity in every mode. *)
Theorem nan_spectrum_not_caught f view id ids d :
  findNeighbors W f id = Ids ids ->
  let s := solve W (computeCovariance W ids) in
  is_Success (info s) = true ->
  eigenvalues s 2%nat = NaN ->
  dims_distinct (m_extraDims f) ->
  m_extraDims f !! "Linearity"%string = Some d ->
  exists v, setDimensionality W f view id = Returned v
            /\ getField v id d = Some NaN.
Proof.
  intros Hn s Hs Hnan Hdist Hd.
  assert (Hz : eqb (max (eigenvalues s 2%nat) zero) zero = false)
    by (rewrite Hnan; reflexivity).
  rewrite (setDimensionality_computes W f view id ids Hn Hs Hz). cbv zeta. fold s.
  eexists. split; [reflexivity|].
  apply writeFeatures_read with (name := "Linearity"%string); auto.
  apply in_or_app. left. left. f_equal.
  unfold clampedSpectrum. rewrite Hnan. unfold scaleEigenvalues.
  destruct (String.eqb (m_mode f) "SQRT"); [reflexivity|].
  destruct (String.eqb (m_mode f) "NORM"); reflexivity.
Qed.

End Footprint.

(** ** The sizes of the ranges *)

(** X10.  Without wrap-around the ranges are balanced: each thread gets
    [N / T] points or one more. *)
Theorem ranges_balanced nloops threads t :
  1 <= threads <= INT_MAX -> 0 <= nloops -> threads * nloops < U64_MOD ->
  0 <= t < threads ->
  nloops / threads <= Z.of_nat (length (threadRange nloops threads t))
                   <= nloops / threads + 1.
Proof.
  intros HT HN Hw Ht. unfold threadRange, idRange.
  rewrite length_map, length_seq.
  rewrite (threadStart_exact nloops threads), (threadEnd_exact nloops threads)
    by (assumption || lia).
  replace ((t + 1) * nloops) with (t * nloops + nloops) by ring.
  set (a := t * nloops).
  assert (Ha : 0 <= a) by (unfold a; nia).
  pose proof (Z.div_mod a threads ltac:(lia)) as Da.
  pose proof (Z.div_mod nloops threads ltac:(lia)) as Dn.
  pose proof (Z.div_mod (a + nloops) threads ltac:(lia)) as Ds.
  pose proof (Z.mod_pos_bound a threads ltac:(lia)) as Ba.
  pose proof (Z.mod_pos_bound nloops threads ltac:(lia)) as Bn.
  pose proof (Z.mod_pos_bound (a + nloops) threads ltac:(lia)) as Bs.
  set (qa := a / threads) in *. set (qn := nloops / threads) in *.
  set (qs := (a + nloops) / threads) in *.
  assert (Hlo : qa + qn <= qs) by nia.
  assert (Hhi : qs <= qa + qn + 1) by nia.
  assert (Hqn : 0 <= qn) by (unfold qn; apply Z.div_pos; lia).
  lia.
Qed.

(** ** Relations between the features *)

Section Relations.

Local Open Scope R_scope.

(** Each mode applies one function to the three eigenvalues; it maps 0 to 0,
    keeps the order and keeps positive values positive. *)
Lemma scaled_by mode a b c :
  a >= b -> b >= c -> c >= 0 -> a > 0 ->
  exists g : R -> R,
    scaleEigenvalues mode (accumulate [Fin a; Fin b; Fin c] zero) [Fin a; Fin b; Fin c]
      = [Fin (g a); Fin (g b); Fin (g c)]
    /\ g 0 = 0
    /\ (forall x y, 0 <= y <= x -> 0 <= g y <= g x)
    /\ (forall x, 0 < x -> 0 < g x).
Proof.
  intros Hab Hbc Hc Ha. unfold scaleEigenvalues.
  destruct (String.eqb mode "SQRT").
  - exists R_sqrt.sqrt. cbn [map]. rewrite !sqrt_Fin by lra.
    split; [reflexivity|]. split; [apply sqrt_0|]. split.
    + intros x y Hxy. split; [apply sqrt_pos | apply sqrt_le_1_alt; lra].
    + intros x Hx. now apply sqrt_lt_R0.
  - destruct (String.eqb mode "NORM").
    + rewrite accumulate_Fin. set (s := 0 + a + b + c).
      assert (Hs : 0 < s) by (unfold s; lra).
      exists (fun x => x / s). cbn [map]. rewrite !div_Fin by lra.
      split; [reflexivity|]. split; [unfold Rdiv; ring|]. split.
      * intros x y Hxy. pose proof (Rinv_0_lt_compat s Hs). unfold Rdiv. split; nra.
      * intros x Hx. now apply Rdiv_lt_0_compat.
    + exists (fun x => x). repeat split; intros; lra.
Qed.

(** X11 (in exact arithmetic).  For a valid spectrum, in every mode (not
    only without scaling),
    Linearity + Planarity + Scattering = 1, Anisotropy + Scattering = 1 and
    Anisotropy = Linearity + Planarity. *)
Theorem shape_features_sum_to_one mode l0 l1 l2 :
  l0 >= l1 -> l1 >= l2 -> l2 >= 0 -> l0 > 0 ->
  let raw := [Fin l0; Fin l1; Fin l2] in
  let lambda := scaleEigenvalues mode (accumulate raw zero) raw in
  add (add (linearity lambda) (planarity lambda)) (scattering lambda) = Fin 1
  /\ add (anisotropy lambda) (scattering lambda) = Fin 1
  /\ add (linearity lambda) (planarity lambda) = anisotropy lambda.
Proof.
  intros H01 H12 H2 H0 raw lambda.
  destruct (scaled_spectrum mode l0 l1 l2 H01 H12 H2 H0)
    as (a & b & c & E & Hab & Hbc & Hc & Ha).
  fold raw in E. fold lambda in E. rewrite E.
  unfold linearity, planarity, scattering, anisotropy, at_, sub, neg, add. simpl nth.
  rewrite !div_Fin by lra.
  repeat split; f_equal; field; lra.
Qed.

(** X12 (in exact arithmetic: rounding, overflow and underflow of the
    doubles set aside).  Flat and thin neighbourhoods, in every mode.  When
    the smallest eigenvalue is 0 (a plane), Scattering, SurfaceVariation and
    Omnivariance are 0 and Anisotropy is 1; when the two smallest are 0 (a
    line), Linearity is 1 and Planarity is 0 as well. *)
Theorem planar_and_linear_spectra mode l0 l1 :
  l0 >= l1 -> l1 >= 0 -> l0 > 0 ->
  let raw := [Fin l0; Fin l1; Fin 0] in
  let sum := accumulate raw zero in
  let lambda := scaleEigenvalues mode sum raw in
  scattering lambda = Fin 0 /\ surfaceVariation lambda sum = Fin 0
  /\ omnivariance lambda = Fin 0 /\ anisotropy lambda = Fin 1
  /\ (l1 = 0 -> linearity lambda = Fin 1 /\ planarity lambda = Fin 0).
Proof.
  intros H01 H1 H0 raw sum lambda.
  destruct (scaled_by mode l0 l1 0 H01 H1 ltac:(lra) H0) as (g & E & Hg0 & Hmono & Hpos).
  fold raw in E. fold sum in E. fold lambda in E. rewrite E, Hg0.
  pose proof (Hpos l0 H0) as Hg.
  assert (Hsum : sum = Fin (0 + l0 + l1 + 0)) by reflexivity.
  unfold scattering, surfaceVariation, omnivariance, anisotropy, linearity, planarity,
    at_, sub, neg, add. simpl nth.
  rewrite Hsum, !div_Fin by lra.
  split; [f_equal; field; lra|]. split; [f_equal; field; lra|]. split; [|split].
  - unfold mul, cbrt. replace (0 * g l1 * g l0) with 0 by ring.
    now rewrite !Rltb_false by lra.
  - f_equal. field. lra.
  - intros ->. rewrite Hg0. split; f_equal; field; lra.
Qed.

(** X13 (in exact arithmetic: rounding, overflow and underflow of the
    doubles set aside).  An isotropic neighbourhood (three equal positive
    eigenvalues), in every mode: Linearity, Planarity and Anisotropy are 0,
    Scattering is 1. *)
Theorem isotropic_spectrum mode l :
  l > 0 ->
  let raw := [Fin l; Fin l; Fin l] in
  let lambda := scaleEigenvalues mode (accumulate raw zero) raw in
  linearity lambda = Fin 0 /\ planarity lambda = Fin 0
  /\ anisotropy lambda = Fin 0 /\ scattering lambda = Fin 1.
Proof.
  intros Hl raw lambda.
  destruct (scaled_by mode l l l ltac:(lra) ltac:(lra) ltac:(lra) Hl)
    as (g & E & _ & _ & Hpos).
  fold raw in E. fold lambda in E. rewrite E.
  pose proof (Hpos l Hl) as Hg.
  unfold linearity, planarity, anisotropy, scattering, at_, sub, neg, add. simpl nth.
  rewrite !div_Fin by lra.
  repeat split; f_equal; field; lra.
Qed.

(** X14 (in exact arithmetic).  Under ["NORM"] the scaled eigenvalues of a
    valid spectrum add up
    to 1, and when the three are positive the Eigenentropy is a finite
    value that is not negative. *)
Theorem normalized_spectrum l0 l1 l2 :
  l0 >= l1 -> l1 >= l2 -> l2 >= 0 -> l0 > 0 ->
  let raw := [Fin l0; Fin l1; Fin l2] in
  let lambda := scaleEigenvalues "NORM" (accumulate raw zero) raw in
  accumulate lambda zero = Fin 1
  /\ (l2 > 0 -> exists e, eigenentropy lambda = Fin e /\ 0 <= e).
Proof.
  intros H01 H12 H2 H0 raw lambda.
  set (s := 0 + l0 + l1 + l2).
  assert (Hs : 0 < s) by (unfold s; lra).
  assert (E : lambda = [Fin (l0 / s); Fin (l1 / s); Fin (l2 / s)]).
  { unfold lambda, raw, scaleEigenvalues. cbn [String.eqb Ascii.eqb Bool.eqb map].
    rewrite accumulate_Fin. fold s. now rewrite !div_Fin by lra. }
  rewrite E. split.
  - rewrite accumulate_Fin. f_equal. unfold s. field. lra.
  - intros Hpos.
    assert (Hb : forall x, 0 < x <= s -> 0 < x / s /\ x / s * ln (x / s) <= 0).
    { intros x [Hx Hxs].
      assert (Hq : 0 < x / s) by (apply Rdiv_lt_0_compat; lra).
      assert (Hq1 : x / s <= 1) by (apply (ratio_in_unit x s); lra).
      assert (Hln : ln (x / s) <= 0).
      { rewrite <- ln_1. destruct (Req_dec_T (x / s) 1) as [->|Hne]; [lra|].
        apply Rlt_le, ln_increasing; lra. }
      split; [assumption | nra]. }
    destruct (Hb l0 ltac:(unfold s; lra)) as [P0 N0].
    destruct (Hb l1 ltac:(unfold s; lra)) as [P1 N1].
    destruct (Hb l2 ltac:(unfold s; lra)) as [P2 N2].
    rewrite eigenentropy_positive by assumption.
    eexists. split; [reflexivity | lra].
Qed.

(** X15 (in exact arithmetic: rounding, overflow and underflow of the
    doubles set aside).  Verticality of a valid spectrum, in every mode,
    with finite eigenvectors of which the first (column 2) is not the zero
    vector, lies in [0,1]; DemantkeVerticality lies in [0,1] when the third
    component of the last eigenvector (column 0) is at most 1 in absolute
    value. *)
Theorem verticality_bounded mode l0 l1 l2 (vecs : nat -> nat -> double)
    (x : nat -> nat -> R) :
  l0 >= l1 -> l1 >= l2 -> l2 >= 0 -> l0 > 0 ->
  (forall col row, vecs col row = Fin (x col row)) ->
  (x 2%nat 0%nat <> 0 \/ x 2%nat 1%nat <> 0 \/ x 2%nat 2%nat <> 0) ->
  let raw := [Fin l0; Fin l1; Fin l2] in
  let lambda := scaleEigenvalues mode (accumulate raw zero) raw in
  within 0 1 (verticality lambda vecs)
  /\ (Rabs (x 0%nat 2%nat) <= 1 -> within 0 1 (demantkeVerticality vecs)).
Proof.
  intros H01 H12 H2 H0 Hfin Hnz raw lambda.
  destruct (scaled_spectrum mode l0 l1 l2 H01 H12 H2 H0)
    as (a & b & c & E & Hab & Hbc & Hc & Ha).
  fold raw in E. fold lambda in E. rewrite E. split.
  - set (U := fun i => a * Rabs (x 2%nat i) + b * Rabs (x 1%nat i) + c * Rabs (x 0%nat i)).
    assert (HU : forall i, unary_vector [Fin a; Fin b; Fin c] vecs i = Fin (U i)).
    { intros i. unfold unary_vector, at_. simpl nth. now rewrite !Hfin. }
    assert (HU0 : forall i, 0 <= U i).
    { intros i. unfold U.
      pose proof (Rabs_pos (x 2%nat i)). pose proof (Rabs_pos (x 1%nat i)).
      pose proof (Rabs_pos (x 0%nat i)). nra. }
    assert (HUpos : forall i, x 2%nat i <> 0 -> 0 < U i).
    { intros i Hi. unfold U.
      pose proof (Rabs_pos_lt _ Hi). pose proof (Rabs_pos (x 1%nat i)).
      pose proof (Rabs_pos (x 0%nat i)). nra. }
    unfold verticality. cbv zeta. simpl fold_left. rewrite !HU.
    unfold mul, add, zero.
    set (S := 0 + U 0%nat * U 0%nat + U 1%nat * U 1%nat + U 2%nat * U 2%nat).
    pose proof (HU0 0%nat). pose proof (HU0 1%nat). pose proof (HU0 2%nat).
    assert (HS : 0 < S).
    { unfold S. destruct Hnz as [Hi | [Hi | Hi]]; apply HUpos in Hi; nra. }
    rewrite sqrt_Fin by lra.
    assert (Hsq : 0 < R_sqrt.sqrt S) by now apply sqrt_lt_R0.
    rewrite div_Fin by lra.
    eexists. split; [reflexivity|]. apply ratio_in_unit; [|assumption].
    split; [auto|].
    rewrite <- (sqrt_square (U 2%nat)) at 1 by auto.
    apply sqrt_le_1_alt. unfold S. nra.
  - intros Hz. unfold demantkeVerticality, sub, neg, add, one, fabs.
    rewrite Hfin. eexists. split; [reflexivity|].
    pose proof (Rabs_pos (x 0%nat 2%nat)). lra.
Qed.

End Relations.

Section DensityEdge.

Context (W : Collaborators).
Local Open Scope R_scope.


End DensityEdge.

(** ** The further properties on explicit inputs *)

Section MoreInstances.

Import Sample SampleFacts.
Local Open Scope R_scope.

(** In the sample views every point of a precomputed run gets its
    features. *)
Lemma sample_point_returns e0 e1 e2 found kopt ropt mode view id :
  (0 < e2)%R ->
  exists v, setDimensionality (world Success (Fin e0) (Fin e1) (Fin e2) found kopt ropt)
              (allOptimized mode) view id = Returned v.
Proof.
  intros He.
  destruct (setDimensionality_slots
              (world Success (Fin e0) (Fin e1) (Fin e2) found kopt ropt)
              (allOptimized mode) view id _
              (allOptimized_neighbours mode _ id)) as (v & Hv & _).
  - reflexivity.
  - now apply nondegenerate_Fin.
  - apply allOptimized_distinct.
  - eauto.
Qed.

Lemma sample_run_returns e0 e1 e2 found kopt ropt mode ids : forall view,
  (0 < e2)%R ->
  exists v, forEachPoint (world Success (Fin e0) (Fin e1) (Fin e2) found kopt ropt)
              (allOptimized mode) ids view = Returned v.
Proof.
  induction ids as [|i ids IH]; intros view He; [simpl; eauto|].
  destruct (sample_point_returns e0 e1 e2 found kopt ropt mode view i He) as [v Hv].
  simpl. rewrite Hv. now apply IH.
Qed.



(** No option given: the set-up succeeds. *)
Lemma initialize_fails_only_without_optimal_dims_witness :
  exists f layout',
    initialize Layout registerOrAssignDim findDim noOptions layout0 = Returned (f, layout').
Proof.
  apply (proj1 (proj2
           (initialize_fails_only_without_optimal_dims Layout registerOrAssignDim findDim
              noOptions layout0))).
  discriminate.
Defined.

(** Point 0 of a view of two points. *)
Lemma setDimensionality_footprint_witness :
  exists v,
    setDimensionality (world Success (Fin 1) (Fin 2) (Fin 3) 0 10 (Fin 1))
      (allOptimized "") (emptyView 2) 0%Z = Returned v
    /\ pv_size v = pv_size (emptyView 2)
    /\ forall id' d,
         id' <> 0%Z
         \/ (forall name, In name allFeatures ->
               m_extraDims (allOptimized "") !! name <> Some d) ->
         getField v id' d = getField (emptyView 2) id' d.
Proof.
  destruct (sample_point_returns 1 2 3 0 10 (Fin 1) "" (emptyView 2) 0%Z ltac:(lra))
    as [v Hv].
  exists v. split; [exact Hv|].
  exact (setDimensionality_footprint _ _ _ _ _ Hv).
Defined.

(** Three points, two threads, the points taken in the order 2, 0, 1. *)
Lemma any_order_same_view_witness :
  let W := world Success (Fin 1) (Fin 2) (Fin 3) 0 10 (Fin 1) in
  let f := with_threads (allOptimized "") 2 in
  exists v, forEachPoint W f [2; 0; 1]%Z (emptyView 3) = Returned v
            /\ filter W (with_threads f 1) (emptyView 3) = Returned v.
Proof.
  intros W f.
  destruct (sample_run_returns 1 2 3 0 10 (Fin 1) "" [2; 0; 1]%Z (emptyView 3)
              ltac:(lra)) as [v Hv].
  exists v.
  assert (Hv' : forEachPoint W f [2; 0; 1]%Z (emptyView 3) = Returned v).
  { unfold f. rewrite forEachPoint_threads. exact Hv. }
  split; [exact Hv'|].
  apply (any_order_same_view W f (emptyView 3) [2; 0; 1]%Z v).
  - vm_compute. intuition discriminate.
  - vm_compute. discriminate.
  - vm_compute. reflexivity.
  - change (Permutation [2; 0; 1]%Z [0; 1; 2]%Z).
    apply perm_trans with [0; 2; 1]%Z; [apply perm_swap | apply perm_skip, perm_swap].
  - exact Hv'.
Defined.

(** Three points, one thread. *)
Lemma filter_twice_witness :
  let W := world Success (Fin 1) (Fin 2) (Fin 3) 0 10 (Fin 1) in
  exists v, filter W (allOptimized "") (emptyView 3) = Returned v
            /\ filter W (allOptimized "") v = Returned v.
Proof.
  intros W.
  destruct (sample_run_returns 1 2 3 0 10 (Fin 1) "" [0; 1; 2]%Z (emptyView 3)
              ltac:(lra)) as [v Hv].
  exists v.
  assert (Hf : filter W (allOptimized "") (emptyView 3) = Returned v) by exact Hv.
  split; [exact Hf|].
  exact (filter_twice W (allOptimized "") (emptyView 3) v Hf).
Defined.

(** [threads = 0] on a view of five points. *)
Lemma filter_nothing_to_do_witness :
  filter (world Success (Fin 1) (Fin 2) (Fin 3) 0 10 (Fin 1))
    (with_threads (allOptimized "") 0) (emptyView 5) = Returned (emptyView 5).
Proof.
  apply (filter_nothing_to_do _ (with_threads (allOptimized "") 0) (emptyView 5)).
  left. reflexivity.
Defined.

(** The same filter with seven threads and the radius handle assigned. *)
Lemma optimized_ignores_search_options_witness :
  let W := world Success (Fin 1) (Fin 2) (Fin 3) 0 10 (Fin 1) in
  let f := allOptimized "" in
  let f' := with_radiusArg (with_threads f 7) (Some {| arg_set := true |}) in
  setDimensionality W f (emptyView 1) 0%Z <> Undefined
  /\ setDimensionality W f' (emptyView 1) 0%Z = setDimensionality W f (emptyView 1) 0%Z.
Proof.
  intros W f f'.
  apply (optimized_ignores_search_options W f f' (emptyView 1) 0%Z); reflexivity.
Defined.

(** The solver reports success with the eigenvalues 0, 1, NaN. *)
Lemma nan_spectrum_not_caught_witness :
  exists v,
    setDimensionality (world Success (Fin 0) (Fin 1) NaN 0 10 (Fin 1))
      (allOptimized "") (emptyView 1) 0%Z = Returned v
    /\ getField v 0%Z 5%nat = Some NaN.
Proof.
  apply (nan_spectrum_not_caught (world Success (Fin 0) (Fin 1) NaN 0 10 (Fin 1))
           (allOptimized "") (emptyView 1) 0%Z _ 5%nat
           (allOptimized_neighbours "" _ 0%Z)).
  - reflexivity.
  - reflexivity.
  - apply allOptimized_distinct.
  - vm_compute. reflexivity.
Defined.

(** Ten points, four threads, thread 1. *)
Lemma ranges_balanced_witness :
  (10 / 4 <= Z.of_nat (length (threadRange 10 4 1)) <= 10 / 4 + 1)%Z.
Proof.
  apply (ranges_balanced 10 4 1).
  - vm_compute. intuition discriminate.
  - lia.
  - vm_compute. reflexivity.
  - lia.
Defined.

(** The spectrum 4, 1, 0 under ["SQRT"]. *)
Lemma shape_features_sum_to_one_witness :
  let raw := [Fin 4; Fin 1; Fin 0] in
  let lambda := scaleEigenvalues "SQRT" (accumulate raw zero) raw in
  add (add (linearity lambda) (planarity lambda)) (scattering lambda) = Fin 1
  /\ add (anisotropy lambda) (scattering lambda) = Fin 1
  /\ add (linearity lambda) (planarity lambda) = anisotropy lambda.
Proof. apply (shape_features_sum_to_one "SQRT" 4 1 0); lra. Defined.

(** The plane 4, 1, 0 under ["NORM"]. *)
Lemma planar_and_linear_spectra_witness :
  let raw := [Fin 4; Fin 1; Fin 0] in
  let sum := accumulate raw zero in
  let lambda := scaleEigenvalues "NORM" sum raw in
  scattering lambda = Fin 0 /\ surfaceVariation lambda sum = Fin 0
  /\ omnivariance lambda = Fin 0 /\ anisotropy lambda = Fin 1
  /\ (1 = 0 -> linearity lambda = Fin 1 /\ planarity lambda = Fin 0).
Proof. apply (planar_and_linear_spectra "NORM" 4 1); lra. Defined.

(** Three eigenvalues 2 under ["SQRT"]. *)
Lemma isotropic_spectrum_witness :
  let raw := [Fin 2; Fin 2; Fin 2] in
  let lambda := scaleEigenvalues "SQRT" (accumulate raw zero) raw in
  linearity lambda = Fin 0 /\ planarity lambda = Fin 0
  /\ anisotropy lambda = Fin 0 /\ scattering lambda = Fin 1.
Proof. apply (isotropic_spectrum "SQRT" 2); lra. Defined.

(** The spectrum 4, 1, 1. *)
Lemma normalized_spectrum_witness :
  let raw := [Fin 4; Fin 1; Fin 1] in
  let lambda := scaleEigenvalues "NORM" (accumulate raw zero) raw in
  accumulate lambda zero = Fin 1
  /\ (1 > 0 -> exists e, eigenentropy lambda = Fin e /\ 0 <= e).
Proof. apply (normalized_spectrum 4 1 1); lra. Defined.

(** The coordinate axes as eigenvectors, as in the sample views. *)
Lemma verticality_bounded_witness :
  let vecs := eigenvectors (solve (world Success (Fin 1) (Fin 2) (Fin 3) 0 10 (Fin 1)) tt) in
  let raw := [Fin 3; Fin 2; Fin 1] in
  let lambda := scaleEigenvalues "SQRT" (accumulate raw zero) raw in
  within 0 1 (verticality lambda vecs)
  /\ (Rabs (if Nat.eqb 0 2 then 1 else 0) <= 1 -> within 0 1 (demantkeVerticality vecs)).
Proof.
  intros vecs.
  apply (verticality_bounded "SQRT" 3 2 1 vecs
           (fun col row => if Nat.eqb col row then 1 else 0)); try lra.
  - intros col row. unfold vecs. simpl. now destruct (Nat.eqb col row).
  - right. right. simpl. lra.
Defined.


End MoreInstances.

(** ** Each point on its own *)

Section Locality.

Context (W : Collaborators).

Lemma writeRows_same_base f id rows a b d :
  getField a id d = getField b id d ->
  getField (writeRows f id rows a) id d = getField (writeRows f id rows b) id d.
Proof.
  intros Hab. destruct (writeRows_lookup f id rows) as [g Hg].
  unfold getField in *. rewrite !Hg. now destruct (g (id, d)).
Qed.

Lemma forEachPoint_pointwise f ids : forall view v,
  NoDup ids ->
  forEachPoint W f ids view = Returned v ->
  forall i,
    (In i ids ->
       exists vi, setDimensionality W f view i = Returned vi
                  /\ forall d, getField v i d = getField vi i d)
    /\ (~ In i ids -> forall d, getField v i d = getField view i d).
Proof.
  induction ids as [|j ids IH]; intros view v Hnd Hrun i.
  - simpl in Hrun. inversion Hrun; subst. split; [intros []|reflexivity].
  - simpl in Hrun.
    destruct (setDimensionality W f view j) as [v'| |] eqn:Ej; try discriminate.
    apply NoDup_cons in Hnd as [Hj Hnd].
    rewrite list_elem_of_In in Hj.
    destruct (IH v' v Hnd Hrun i) as [IHin IHout].
    destruct (setDimensionality_frame W f view j v' Ej) as [_ Hframe].
    split.
    + intros [<- | Hin].
      * exists v'. split; [assumption|]. intros d. now apply IHout.
      * assert (Hne : j <> i) by (intros ->; contradiction).
        destruct (IHin Hin) as (vi' & Hvi' & Hread).
        destruct (setDimensionality_shape W f i) as [U | [[m T] | [rows R]]];
          [rewrite U in Hvi'; discriminate | rewrite T in Hvi'; discriminate |].
        exists (writeRows f i rows view). split; [apply R|].
        intros d. rewrite Hread. rewrite R in Hvi'. inversion Hvi'; subst vi'.
        apply writeRows_same_base. now apply Hframe.
    + intros Hnot d. simpl in Hnot.
      rewrite IHout by tauto. apply Hframe. tauto.
Qed.

Lemma NoDup_idRange a b : NoDup (idRange a b).
Proof.
  unfold idRange. apply NoDup_fmap_2; [|apply NoDup_seq].
  intros x y Hxy. lia.
Qed.

(** X17.  In a run that completes (no wrap-around in the bounds), what a
    point holds at the end is what its own call writes when made on the
    view as it was at the start: the features of a point do not depend on
    the processing of any other point. *)
Theorem filter_pointwise f view v :
  1 <= m_threads f <= INT_MAX ->
  0 <= pv_size view ->
  m_threads f * pv_size view < U64_MOD ->
  filter W f view = Returned v ->
  forall i,
    (0 <= i < pv_size view ->
       exists vi, setDimensionality W f view i = Returned vi
                  /\ forall d, getField v i d = getField vi i d)
    /\ (~ 0 <= i < pv_size view -> forall d, getField v i d = getField view i d).
Proof.
  intros HT HN Hw Hrun i. unfold filter in Hrun.
  destruct (Z.ltb_spec (m_threads f) 0) as [Hneg|_]; [lia|].
  rewrite all_ranges in Hrun by assumption.
  destruct (forEachPoint_pointwise f _ view v (NoDup_idRange 0 (pv_size view)) Hrun i)
    as [Hin Hout].
  split.
  - intros Hi. apply Hin. apply in_idRange. lia.
  - intros Hi. apply Hout. rewrite in_idRange. lia.
Qed.

End Locality.

Section SurfaceVariationBound.

Local Open Scope R_scope.

(** X18 (in exact arithmetic).  Without scaling, SurfaceVariation of a
    valid spectrum is at most
    1/3, and it is 1/3 when the three eigenvalues are equal. *)
Theorem surface_variation_at_most_third mode l0 l1 l2 :
  mode <> "SQRT"%string -> mode <> "NORM"%string ->
  l0 >= l1 -> l1 >= l2 -> l2 >= 0 -> l0 > 0 ->
  let raw := [Fin l0; Fin l1; Fin l2] in
  let sum := accumulate raw zero in
  exists r, surfaceVariation (scaleEigenvalues mode sum raw) sum = Fin r
            /\ 0 <= r <= 1 / 3 /\ (l0 = l2 -> r = 1 / 3).
Proof.
  intros Hs Hn H01 H12 H2 H0 raw sum.
  apply String.eqb_neq in Hs, Hn. unfold scaleEigenvalues. rewrite Hs, Hn.
  unfold sum, raw. rewrite accumulate_Fin.
  unfold surfaceVariation, at_. simpl nth. rewrite div_Fin by lra.
  eexists. split; [reflexivity|].
  assert (Hsum : 0 < 0 + l0 + l1 + l2) by lra.
  pose proof (Rinv_0_lt_compat _ Hsum) as Hi.
  assert (Hone : (0 + l0 + l1 + l2) * / (0 + l0 + l1 + l2) = 1) by (field; lra).
  split.
  - unfold Rdiv. split; nra.
  - intros ->. assert (l1 = l2) by lra. subst l1. field. lra.
Qed.

End SurfaceVariationBound.

Section LocalityInstances.

Import Sample SampleFacts.
Local Open Scope R_scope.

(** Three points, two threads. *)
Lemma filter_pointwise_witness :
  let W := world Success (Fin 1) (Fin 2) (Fin 3) 0 10 (Fin 1) in
  let f := with_threads (allOptimized "") 2 in
  exists v, filter W f (emptyView 3) = Returned v
    /\ forall i,
         ((0 <= i < 3)%Z ->
            exists vi, setDimensionality W f (emptyView 3) i = Returned vi
                       /\ forall d, getField v i d = getField vi i d)
         /\ (~ (0 <= i < 3)%Z -> forall d, getField v i d = getField (emptyView 3) i d).
Proof.
  intros W f.
  destruct (sample_run_returns 1 2 3 0 10 (Fin 1) "" [0; 1; 2]%Z (emptyView 3)
              ltac:(lra)) as [v Hv].
  assert (Hf : filter W f (emptyView 3) = Returned v).
  { unfold filter.
    change (forEachPoint W f [0; 1; 2]%Z (emptyView 3) = Returned v).
    unfold f. rewrite forEachPoint_threads. exact Hv. }
  exists v. split; [exact Hf|].
  apply (filter_pointwise W f (emptyView 3) v).
  - vm_compute. intuition discriminate.
  - vm_compute. discriminate.
  - vm_compute. reflexivity.
  - exact Hf.
Defined.

(** The spectrum 2, 2, 2 without scaling. *)
Lemma surface_variation_at_most_third_witness :
  let raw := [Fin 2; Fin 2; Fin 2] in
  let sum := accumulate raw zero in
  exists r, surfaceVariation (scaleEigenvalues "" sum raw) sum = Fin r
            /\ 0 <= r <= 1 / 3 /\ (2 = 2 -> r = 1 / 3).
Proof.
  apply (surface_variation_at_most_third "" 2 2 2); (discriminate || lra).
Defined.

End LocalityInstances.
